(** * wagtail.admin.utils: permission decorators and notification dispatch

    A shallow embedding of [wagtail/admin/utils.py].  The functions of the
    module are translated one by one; the framework collaborators they call
    (ORM tables, the template renderer, the mail transport, the active
    locale) are made explicit as an environment record, a piece of threaded
    state and a log of the calls made to them. *)

From Stdlib Require Import String Ascii List Bool Arith Lia.
Import ListNotations.
Local Open Scope string_scope.
Local Open Scope list_scope.

Set Implicit Arguments.

(** ** Data model *)

Definition Lang := string.

(** [wagtail.users.models.UserProfile]: the three per-kind notification
    preferences and the preferred language. *)
Record UserProfile := mkUserProfile {
  submitted_notifications : bool;
  approved_notifications : bool;
  rejected_notifications : bool;
  get_preferred_language : Lang
}.

(** A row of the user table, with its group memberships and its profile
    (what [UserProfile.get_for_user] and [user.wagtail_userprofile] give). *)
Record User := mkUser {
  pk : nat;
  email : string;
  is_active : bool;
  is_superuser : bool;
  groups : list nat;
  wagtail_userprofile : UserProfile
}.

(** A page with its ancestor chain, root first, as primary keys. *)
Record Page := mkPage {
  page_pk : nat;
  get_ancestors : list nat
}.

Record GroupPagePermission := mkGroupPagePermission {
  gpp_id : nat;
  gpp_group : nat;
  gpp_page : nat;
  permission_type : string
}.

(** A revision with its page and the user who made it.  The model covers
    the revisions that have such a user; one whose user was deleted, of
    which [revision.user] is [None], is not represented. *)
Record PageRevision := mkPageRevision {
  revision_id : nat;
  revision_page : Page;
  revision_user : User
}.

(** [django.conf.settings]: [None] is an attribute that is not defined. *)
Record Settings := mkSettings {
  WAGTAILADMIN_NOTIFICATION_FROM_EMAIL : option string;
  DEFAULT_FROM_EMAIL : option string;
  WAGTAILADMIN_NOTIFICATION_INCLUDE_SUPERUSERS : option bool;
  WAGTAILADMIN_NOTIFICATION_USE_HTML : option bool
}.

(** [getattr(settings, name, default)]. *)
Definition getattr_default {A : Type} (attr : option A) (default : A) : A :=
  match attr with
  | Some v => v
  | None => default
  end.

(** The template context: {"revision": ..., "settings": ..., "user": ...};
    the "user" key is absent until the loop sets it. *)
Record Context := mkContext {
  ctx_revision : PageRevision;
  ctx_settings : Settings;
  ctx_user : option User
}.

(** The connection an e-mail goes out on: the one given by the caller, or
    the one [get_connection] opens from the caller's credentials. *)
Inductive Connection :=
| GivenConnection (c : nat)
| GetConnection (username password : option string) (fail_silently : option bool).

(** [EmailMultiAlternatives] as [send_mail] builds it. *)
Record EmailMessage := mkEmailMessage {
  mail_subject : string;
  mail_body : string;
  mail_from : string;
  mail_to : list string;
  mail_connection : Connection;
  mail_headers : list (string * string);
  mail_alternatives : list (string * string)
}.

Record Request := mkRequest {
  request_user : User;
  is_ajax : bool
}.

(** Positional and keyword arguments of a view, [*args, **kwargs]. *)
Definition ViewArgs := (list string * list (string * string))%type.

Inductive HttpResponse :=
| Redirect (to : string)
| Rendered (content : string).

(** ** Exceptions and outcomes *)

Inductive exn :=
| DoesNotExist
| UnboundLocalError (name : string)
| PermissionDenied
| TemplateError (detail : string)
| SMTPException (detail : string).

Inductive outcome (A : Type) :=
| Return (a : A)
| Raise (e : exn).

Arguments Return {A} a.
Arguments Raise {A} e.

(** ** Calls to the collaborators, as they are observed from outside *)

Inductive Event :=
| EvResolver (page : Page) (perm : string) (include_superusers : bool)
| EvRender (language : Lang) (template : string) (context : Context)
| EvSend (m : EmailMessage)
| EvLog (subject recipient : string)
| EvMessageError (text : string)
| EvView (name : string) (request : Request) (args : ViewArgs).

(** ** The environment: tables, settings and oracles for the collaborators *)

Record Env := mkEnv {
  settings : Settings;
  page_revisions : list PageRevision;
  users : list User;
  page_permissions : list GroupPagePermission;
  (** [render_to_string], which depends on the active language *)
  render : Lang -> string -> Context -> outcome string;
  (** [EmailMultiAlternatives.send] *)
  mail_send : EmailMessage -> outcome nat;
  (** [ugettext] *)
  ugettext : Lang -> string -> string;
  (** [user.has_perm] *)
  has_perm : User -> string -> bool
}.

(** ** A monad for the effects of the module

    A computation runs in a state made of the active language and the local
    variables [L] of the running function, returns a value or raises, and
    records the calls it makes.  State changes made before an exception is
    raised stay, as in Python. *)

Definition M (L A : Type) : Type :=
  (Lang * L) -> outcome A * (Lang * L) * list Event.

Definition ret {L A} (a : A) : M L A := fun s => (Return a, s, []).

Definition raise {L A} (e : exn) : M L A := fun s => (Raise e, s, []).

Definition bind {L A B} (m : M L A) (k : A -> M L B) : M L B :=
  fun s =>
    match m s with
    | (Return a, s1, t1) =>
        match k a s1 with
        | (r, s2, t2) => (r, s2, t1 ++ t2)
        end
    | (Raise e, s1, t1) => (Raise e, s1, t1)
    end.

Notation "x <- m ;; k" := (bind m (fun x => k))
  (at level 61, m at next level, right associativity).
Notation "m ;;; k" := (bind m (fun _ => k))
  (at level 61, right associativity).

(** [try: m except Exception: h]. *)
Definition try_except {L A} (m : M L A) (h : exn -> M L A) : M L A :=
  fun s =>
    match m s with
    | (Return a, s1, t1) => (Return a, s1, t1)
    | (Raise e, s1, t1) =>
        match h e s1 with
        | (r, s2, t2) => (r, s2, t1 ++ t2)
        end
    end.

Definition emit {L} (e : Event) : M L unit := fun s => (Return tt, s, [e]).

Definition lift_outcome {L A} (o : outcome A) : M L A := fun s => (o, s, []).

Definition get_language {L} : M L Lang := fun s => (Return (fst s), s, []).

Definition get_locals {L} : M L L := fun s => (Return (snd s), s, []).

Definition modify_locals {L} (f : L -> L) : M L unit :=
  fun s => (Return tt, (fst s, f (snd s)), []).

(** [with override(language): body] of [django.utils.translation]: the
    language that was active is saved, [language] is activated, and the
    saved one is activated again when the block is left, by its end or by
    an exception. *)
Definition override {L A} (language : Lang) (body : M L A) : M L A :=
  fun s =>
    let old_language := fst s in
    match body (language, snd s) with
    | (r, s1, t1) => (r, (old_language, snd s1), t1)
    end.

Fixpoint for_each {L A} (xs : list A) (body : A -> M L unit) : M L unit :=
  match xs with
  | [] => ret tt
  | x :: rest => body x ;;; for_each rest body
  end.

(** The three parts of a run. *)
Definition result_of {A S} (r : outcome A * S * list Event) : outcome A :=
  fst (fst r).

Definition language_after {A L} (r : outcome A * (Lang * L) * list Event) : Lang :=
  fst (snd (fst r)).

Definition trace_of {A S} (r : outcome A * S * list Event) : list Event :=
  snd r.

(** Every call a computation records satisfies [P]. *)
Definition records {L A} (P : Event -> Prop) (m : M L A) : Prop :=
  forall s, Forall P (trace_of (m s)).

(** A computation leaves the active language as it found it. *)
Definition keeps_language {L A} (m : M L A) : Prop :=
  forall s, language_after (m s) = fst s.

(** ** Strings as Python sees them *)

(** Truth value of a string: the empty string is false. *)
Definition str_truthy (s : string) : bool :=
  match s with
  | EmptyString => false
  | String _ _ => true
  end.

(** Truth value of an optional argument: [None] and [''] are false. *)
Definition opt_truthy (s : option string) : bool :=
  match s with
  | Some v => str_truthy v
  | None => false
  end.

(** The characters [str.strip] removes, each as the bytes of its UTF-8
    encoding: U+0009 to U+000D, U+001C to U+0020, U+0085, U+00A0, U+1680,
    U+2000 to U+200A, U+2028, U+2029, U+202F, U+205F and U+3000. *)
Definition whitespace : list (list nat) :=
  [[9]; [10]; [11]; [12]; [13]; [28]; [29]; [30]; [31]; [32];
   [194; 133]; [194; 160]; [225; 154; 128];
   [226; 128; 128]; [226; 128; 129]; [226; 128; 130]; [226; 128; 131];
   [226; 128; 132]; [226; 128; 133]; [226; 128; 134]; [226; 128; 135];
   [226; 128; 136]; [226; 128; 137]; [226; 128; 138];
   [226; 128; 168]; [226; 128; 169]; [226; 128; 175]; [226; 129; 159];
   [227; 128; 128]].

Fixpoint starts_with (prefix : list nat) (cs : list ascii) : bool :=
  match prefix, cs with
  | [], _ => true
  | b :: prefix', c :: cs' =>
      Nat.eqb b (nat_of_ascii c) && starts_with prefix' cs'
  | _ :: _, [] => false
  end.

(** The number of bytes of the character of [encodings] that [cs] starts
    with, 0 when it starts with none of them. *)
Definition leading_space (encodings : list (list nat)) (cs : list ascii) : nat :=
  match find (fun e => starts_with e cs) encodings with
  | Some e => length e
  | None => 0
  end.

(** The characters of [encodings] are removed from the front, one at a
    time; [fuel] bounds the number of them, the length of [cs] is
    enough. *)
Fixpoint lstrip_chars (encodings : list (list nat)) (fuel : nat)
         (cs : list ascii) : list ascii :=
  match fuel with
  | 0 => cs
  | S fuel' =>
      match leading_space encodings cs with
      | 0 => cs
      | k => lstrip_chars encodings fuel' (skipn k cs)
      end
  end.

(** [str.strip()]: white space is removed at both ends; the end is done
    on the reversed string, with the encodings reversed. *)
Definition strip (s : string) : string :=
  let cs := list_ascii_of_string s in
  let left := lstrip_chars whitespace (length cs) cs in
  string_of_list_ascii
    (rev (lstrip_chars (map (@rev nat) whitespace) (length left) (rev left))).

(** ** users_with_page_permission *)

Definition User_eq_dec : forall u v : User, {u = v} + {u <> v}.
Proof.
  repeat decide equality.
Defined.

Definition ancestors_and_self (page : Page) : list nat :=
  get_ancestors page ++ [page_pk page].

(** [GroupPagePermission.objects.filter(permission_type=..., page__in=...)] *)
Definition perm_records (env : Env) (page : Page) (ptype : string)
  : list GroupPagePermission :=
  filter (fun p => String.eqb (permission_type p) ptype
                   && existsb (Nat.eqb (gpp_page p)) (ancestors_and_self page))
         (page_permissions env).

(** The rows the query joins to a user through [groups__page_permissions]:
    one per permission record of each of the user's groups, and a row with
    no record (an outer join) for a group that has none and for a user
    without groups. *)
Definition group_rows (env : Env) (g : nat) : list (option GroupPagePermission) :=
  match filter (fun p => Nat.eqb (gpp_group p) g) (page_permissions env) with
  | [] => [None]
  | ps => map Some ps
  end.

Definition joined_rows (env : Env) (u : User) : list (option GroupPagePermission) :=
  match groups u with
  | [] => [None]
  | gs => flat_map (group_rows env) gs
  end.

(** [Q(groups__page_permissions__in=perm)] on a joined row. *)
Definition q_in_perm (perm : list GroupPagePermission)
           (row : option GroupPagePermission) : bool :=
  match row with
  | Some p => existsb (fun p' => Nat.eqb (gpp_id p') (gpp_id p)) perm
  | None => false
  end.

(** The condition [q], with [q |= Q(is_superuser=True)] when asked. *)
Definition q_filter (perm : list GroupPagePermission) (include_superusers : bool)
           (u : User) (row : option GroupPagePermission) : bool :=
  let q := q_in_perm perm row in
  if include_superusers then q || is_superuser u else q.

(** [User.objects.filter(is_active=True).filter(q)], before [distinct]:
    a user comes once per joined row that satisfies [q]. *)
Definition filtered_rows (env : Env) (page : Page) (ptype : string)
           (include_superusers : bool) : list User :=
  let perm := perm_records env page ptype in
  flat_map (fun u => map (fun _ => u)
                         (filter (q_filter perm include_superusers u)
                                 (joined_rows env u)))
           (filter is_active (users env)).

Definition users_with_page_permission (env : Env) (page : Page)
           (ptype : string) (include_superusers : bool) : list User :=
  nodup User_eq_dec (filtered_rows env page ptype include_superusers).

(** A user is covered by a group grant when one of the rows joined to the
    user carries a permission record of the requested kind on the page or
    on one of its ancestors. *)
Definition covered_by_grant (env : Env) (page : Page) (ptype : string)
           (u : User) : bool :=
  existsb (q_in_perm (perm_records env page ptype)) (joined_rows env u).

(** ** permission_denied, user_passes_test and the decorators built on it *)

(** A view function: it takes the request and its arguments. *)
Definition ViewFunc (L : Type) := Request -> ViewArgs -> M L HttpResponse.

Definition permission_denied {L} (env : Env) (request : Request)
  : M L HttpResponse :=
  if is_ajax request then raise PermissionDenied
  else
    language <- get_language ;;
    emit (EvMessageError
            (ugettext env language
               "Sorry, you do not have permission to access this area.")) ;;;
    ret (Redirect "wagtailadmin_home").

Definition user_passes_test {L} (env : Env) (test : User -> bool)
           (view_func : ViewFunc L) : ViewFunc L :=
  fun request args =>
    if test (request_user request) then view_func request args
    else permission_denied env request.

Definition permission_required {L} (env : Env) (permission_name : string)
  : ViewFunc L -> ViewFunc L :=
  let test := fun user => has_perm env user permission_name in
  user_passes_test env test.

(** The loop of [any_permission_required]: true at the first permission
    the user has. *)
Fixpoint any_perm_test (env : Env) (perms : list string) (user : User) : bool :=
  match perms with
  | [] => false
  | perm :: rest =>
      if has_perm env user perm then true else any_perm_test env rest user
  end.

Definition any_permission_required {L} (env : Env) (perms : list string)
  : ViewFunc L -> ViewFunc L :=
  user_passes_test env (any_perm_test env perms).

(** The capability a permission policy offers to the checker. *)
Class PermissionPolicy (P : Type) := {
  user_has_permission : P -> User -> string -> bool;
  user_has_any_permission : P -> User -> list string -> bool
}.

Record PermissionPolicyChecker (P : Type) := mkPermissionPolicyChecker {
  policy : P
}.

Definition require {L P} `{PermissionPolicy P} (env : Env)
           (self : PermissionPolicyChecker P) (action : string)
  : ViewFunc L -> ViewFunc L :=
  let test := fun user => user_has_permission (policy self) user action in
  user_passes_test env test.

Definition require_any {L P} `{PermissionPolicy P} (env : Env)
           (self : PermissionPolicyChecker P) (actions : list string)
  : ViewFunc L -> ViewFunc L :=
  let test := fun user => user_has_any_permission (policy self) user actions in
  user_passes_test env test.

(** A view of the application, known by its name and by what it answers;
    calling it is recorded. *)
Record NamedView := mkNamedView {
  view_name : string;
  view_body : Request -> ViewArgs -> outcome HttpResponse
}.

Definition call_view {L} (v : NamedView) : ViewFunc L :=
  fun request args =>
    emit (EvView (view_name v) request args) ;;;
    lift_outcome (view_body v request args).

(** The views that were called, in order, with what they were given. *)
Definition view_calls (t : list Event) : list (string * Request * ViewArgs) :=
  flat_map (fun e => match e with
                     | EvView name request args => [(name, request, args)]
                     | _ => []
                     end) t.

(** What a decorator built on a test does to a recorded view: the view is
    called, once and with the request and arguments of the call, when the
    test of the user passes, and the call is that of [permission_denied]
    with no view called when it does not. *)
Definition guards {L} (env : Env) (test : User -> bool)
           (decorator : ViewFunc L -> ViewFunc L) : Prop :=
  forall (v : NamedView) request args (s : Lang * L),
    (test (request_user request) = true ->
     decorator (call_view v) request args s
     = (view_body v request args, s, [EvView (view_name v) request args])
     /\ view_calls (trace_of (decorator (call_view v) request args s))
        = [(view_name v, request, args)])
    /\ (test (request_user request) = false ->
        decorator (call_view v) request args s = permission_denied env request s
        /\ view_calls (trace_of (decorator (call_view v) request args s)) = []).

(** ** send_mail *)

(** The keyword arguments [send_mail] looks at. *)
Record MailKwargs := mkMailKwargs {
  kw_connection : option nat;
  kw_auth_user : option string;
  kw_auth_password : option string;
  kw_fail_silently : option bool;
  kw_html_message : option string
}.

Definition no_kwargs : MailKwargs := mkMailKwargs None None None None None.

(** The first statement of [send_mail]: the sender that is used. *)
Definition sender_address (st : Settings) (from_email : option string) : string :=
  match from_email with
  | Some addr =>
      if str_truthy addr then addr
      else
        match WAGTAILADMIN_NOTIFICATION_FROM_EMAIL st with
        | Some configured => configured
        | None =>
            match DEFAULT_FROM_EMAIL st with
            | Some configured => configured
            | None => "webmaster@localhost"
            end
        end
  | None =>
      match WAGTAILADMIN_NOTIFICATION_FROM_EMAIL st with
      | Some configured => configured
      | None =>
          match DEFAULT_FROM_EMAIL st with
          | Some configured => configured
          | None => "webmaster@localhost"
          end
      end
  end.

(** The sender [EmailMultiAlternatives] keeps: its constructor sets
    [self.from_email = from_email or settings.DEFAULT_FROM_EMAIL], so that
    an empty address is replaced by the default one, which Django gives
    the value 'webmaster@localhost' in a project that does not set it. *)
Definition constructor_from_email (st : Settings) (from_email : string) : string :=
  if str_truthy from_email then from_email
  else getattr_default (DEFAULT_FROM_EMAIL st) "webmaster@localhost".

Definition build_mail (st : Settings) (subject message : string)
           (recipient_list : list string) (from_email : option string)
           (kwargs : MailKwargs) : EmailMessage :=
  let from_email := constructor_from_email st (sender_address st from_email) in
  let connection :=
    match kw_connection kwargs with
    | Some c => GivenConnection c
    | None => GetConnection (kw_auth_user kwargs) (kw_auth_password kwargs)
                            (kw_fail_silently kwargs)
    end in
  let alternatives :=
    if opt_truthy (kw_html_message kwargs)
    then [(getattr_default (kw_html_message kwargs) "", "text/html")]
    else [] in
  mkEmailMessage subject message from_email recipient_list connection
                 [("Auto-Submitted", "auto-generated")] alternatives.

Definition send_mail {L} (env : Env) (subject message : string)
           (recipient_list : list string) (from_email : option string)
           (kwargs : MailKwargs) : M L nat :=
  let mail := build_mail (settings env) subject message recipient_list
                         from_email kwargs in
  emit (EvSend mail) ;;;
  lift_outcome (mail_send env mail).

(** ** send_notification *)

(** The local variables of [send_notification] the loop assigns; a slot is
    [None] until its first assignment. *)
Record Locals := mkLocals {
  email_subject : option string;
  email_content : option string;
  sent_count : nat
}.

Definition no_locals : Locals := mkLocals None None 0.

Definition set_email_subject (v : string) (l : Locals) : Locals :=
  mkLocals (Some v) (email_content l) (sent_count l).

Definition set_email_content (v : string) (l : Locals) : Locals :=
  mkLocals (email_subject l) (Some v) (sent_count l).

Definition set_sent_count (n : nat) (l : Locals) : Locals :=
  mkLocals (email_subject l) (email_content l) n.

(** Reading a local variable: [UnboundLocalError] when nothing was assigned
    to it yet. *)
Definition read_local (name : string) (slot : Locals -> option string)
  : M Locals string :=
  l <- get_locals ;;
  match slot l with
  | Some v => ret v
  | None => raise (UnboundLocalError name)
  end.

(** The row of the revision table with a given id, if there is one. *)
Definition lookup_revision (env : Env) (id : nat) : option PageRevision :=
  find (fun r => Nat.eqb (revision_id r) id) (page_revisions env).

(** [PageRevision.objects.get(id=...)] *)
Definition PageRevision_objects_get {L} (env : Env) (id : nat)
  : M L PageRevision :=
  match lookup_revision env id with
  | Some r => ret r
  | None => raise DoesNotExist
  end.

Definition render_to_string {L} (env : Env) (template : string)
           (context : Context) : M L string :=
  language <- get_language ;;
  emit (EvRender language template context) ;;;
  lift_outcome (render env language template context).

(** The call of the resolver from the dispatcher. *)
Definition call_users_with_page_permission {L} (env : Env) (page : Page)
           (ptype : string) (include_superusers : bool) : M L (list User) :=
  emit (EvResolver page ptype include_superusers) ;;;
  ret (users_with_page_permission env page ptype include_superusers).

(** [getattr(profile, name)] for the attributes of a profile. *)
Definition getattr_profile (p : UserProfile) (name : string) : option bool :=
  if String.eqb name "submitted_notifications" then Some (submitted_notifications p)
  else if String.eqb name "approved_notifications" then Some (approved_notifications p)
  else if String.eqb name "rejected_notifications" then Some (rejected_notifications p)
  else None.

(** The condition of the list comprehension, for a notification whose
    preference attribute exists. *)
Definition wants_email (notification : string) (excluded_user_id : nat)
           (recipient : User) : bool :=
  str_truthy (email recipient)
  && negb (Nat.eqb (pk recipient) excluded_user_id)
  && getattr_default
       (getattr_profile (wagtail_userprofile recipient)
                        (notification ++ "_notifications")%string) false.

(** The recipients of a notification, before the filter; [None] for a
    notification that is neither submitted, rejected nor approved. *)
Definition resolve_recipients {L} (env : Env) (revision : PageRevision)
           (notification : string) : M L (option (list User)) :=
  if String.eqb notification "submitted" then
    let include_superusers :=
      getattr_default
        (WAGTAILADMIN_NOTIFICATION_INCLUDE_SUPERUSERS (settings env)) true in
    recipients <- call_users_with_page_permission env (revision_page revision)
                    "publish" include_superusers ;;
    ret (Some recipients)
  else if existsb (String.eqb notification) ["rejected"; "approved"] then
    ret (Some [revision_user revision])
  else ret None.

(** The three templates of a notification. *)
Definition template_subject (notification : string) : string :=
  ("wagtailadmin/notifications/" ++ notification ++ "_subject.txt")%string.

Definition template_text (notification : string) : string :=
  ("wagtailadmin/notifications/" ++ notification ++ ".txt")%string.

Definition template_html (notification : string) : string :=
  ("wagtailadmin/notifications/" ++ notification ++ ".html")%string.

(** [context["user"] = recipient] *)
Definition set_user (context : Context) (recipient : User) : Context :=
  mkContext (ctx_revision context) (ctx_settings context) (Some recipient).

(** The body of the loop for one recipient. *)
Definition notify_recipient (env : Env) (notification : string)
           (context : Context) (recipient : User) : M Locals unit :=
  try_except
    (let context := set_user context recipient in
     override (get_preferred_language (wagtail_userprofile recipient))
       (subject <- render_to_string env (template_subject notification) context ;;
        modify_locals (set_email_subject (strip subject)) ;;;
        content <- render_to_string env (template_text notification) context ;;
        modify_locals (set_email_content (strip content))) ;;;
     html_message <-
       (if getattr_default (WAGTAILADMIN_NOTIFICATION_USE_HTML (settings env)) false
        then html <- render_to_string env (template_html notification) context ;;
             ret (Some html)
        else ret None) ;;
     subject <- read_local "email_subject" email_subject ;;
     content <- read_local "email_content" email_content ;;
     send_mail env subject content [email recipient] None
               (mkMailKwargs None None None None html_message) ;;;
     modify_locals (fun l => set_sent_count (sent_count l + 1) l))
    (fun _ =>
       subject <- read_local "email_subject" email_subject ;;
       emit (EvLog subject (email recipient))).

Definition send_notification (env : Env) (page_revision_id : nat)
           (notification : string) (excluded_user_id : nat) : M Locals bool :=
  revision <- PageRevision_objects_get env page_revision_id ;;
  resolved <- resolve_recipients env revision notification ;;
  match resolved with
  | None => ret false
  | Some recipients =>
      let email_recipients :=
        filter (wants_email notification excluded_user_id) recipients in
      match email_recipients with
      | [] => ret true
      | _ =>
          let context := mkContext revision (settings env) None in
          modify_locals (set_sent_count 0) ;;;
          for_each email_recipients (notify_recipient env notification context) ;;;
          l <- get_locals ;;
          ret (Nat.eqb (sent_count l) (length email_recipients))
      end
  end.

(** A call of [send_notification] from outside, with [language] active. *)
Definition dispatch (env : Env) (language : Lang) (page_revision_id : nat)
           (notification : string) (excluded_user_id : nat)
  : outcome bool * (Lang * Locals) * list Event :=
  send_notification env page_revision_id notification excluded_user_id
                    (language, no_locals).

Definition is_send (e : Event) : bool :=
  match e with EvSend _ => true | _ => false end.

Definition is_render (e : Event) : bool :=
  match e with EvRender _ _ _ => true | _ => false end.

(** The addresses a send was attempted to, in order. *)
Definition sent_to (t : list Event) : list string :=
  flat_map (fun e => match e with EvSend m => mail_to m | _ => [] end) t.

(** ** Pure readings of the dispatcher's first steps, for the statements *)

Definition recognized (notification : string) : bool :=
  existsb (String.eqb notification) ["submitted"; "rejected"; "approved"].

(** The candidates [resolve_recipients] computes. *)
Definition candidates (env : Env) (revision : PageRevision)
           (notification : string) : option (list User) :=
  if String.eqb notification "submitted" then
    Some (users_with_page_permission env (revision_page revision) "publish"
            (getattr_default
               (WAGTAILADMIN_NOTIFICATION_INCLUDE_SUPERUSERS (settings env)) true))
  else if existsb (String.eqb notification) ["rejected"; "approved"] then
    Some [revision_user revision]
  else None.

(** The list [email_recipients] of the source. *)
Definition email_recipients (env : Env) (revision : PageRevision)
           (notification : string) (excluded_user_id : nat) : option (list User) :=
  option_map (filter (wants_email notification excluded_user_id))
             (candidates env revision notification).

(** What the resolution of the candidates records. *)
Definition resolver_trace (env : Env) (revision : PageRevision)
           (notification : string) : list Event :=
  if String.eqb notification "submitted" then
    [EvResolver (revision_page revision) "publish"
       (getattr_default
          (WAGTAILADMIN_NOTIFICATION_INCLUDE_SUPERUSERS (settings env)) true)]
  else [].

Definition with_settings (env : Env) (st : Settings) : Env :=
  mkEnv st (page_revisions env) (users env) (page_permissions env)
        (render env) (mail_send env) (ugettext env) (has_perm env).

(** The filtered list, empty when there is none. *)
Definition filtered_recipients (env : Env) (revision : PageRevision)
           (notification : string) (excluded_user_id : nat) : list User :=
  match email_recipients env revision notification excluded_user_id with
  | Some recipients => recipients
  | None => []
  end.

(** A recorded call is, if it is a send, a send to the address of one of
    the users [us], and to that address only. *)
Definition addressed_to (us : list User) (e : Event) : Prop :=
  match e with
  | EvSend m => exists u, In u us /\ mail_to m = [email u]
  | _ => True
  end.

Definition is_return {A} (o : outcome A) : bool :=
  match o with Return _ => true | Raise _ => false end.

(** Whether the turn of the loop for [recipient] gets to the end of its
    [try] block when the call was made with [language] active: the subject
    and the text render in the language of the recipient, the HTML body,
    if there is one, renders in [language], and the transport takes the
    message. *)
Definition attempt_succeeds (env : Env) (language : Lang) (notification : string)
           (context : Context) (recipient : User) : bool :=
  let context := set_user context recipient in
  let preferred := get_preferred_language (wagtail_userprofile recipient) in
  match render env preferred (template_subject notification) context with
  | Raise _ => false
  | Return subject =>
      match render env preferred (template_text notification) context with
      | Raise _ => false
      | Return content =>
          if getattr_default (WAGTAILADMIN_NOTIFICATION_USE_HTML (settings env)) false
          then
            match render env language (template_html notification) context with
            | Raise _ => false
            | Return html =>
                is_return
                  (mail_send env
                     (build_mail (settings env) (strip subject) (strip content)
                        [email recipient] None
                        (mkMailKwargs None None None None (Some html))))
            end
          else
            is_return
              (mail_send env
                 (build_mail (settings env) (strip subject) (strip content)
                    [email recipient] None
                    (mkMailKwargs None None None None None)))
      end
  end.

(** ** A small site, for the examples *)

Module Site.

Definition profile (language : Lang) : UserProfile :=
  mkUserProfile true true true language.

(** the editor who submits *)
Definition alice := mkUser 1 "alice@example.com" true false [] (profile "en").
(** a moderator, member of group 10 *)
Definition bob := mkUser 2 "bob@example.com" true false [10] (profile "fr").
(** a superuser *)
Definition carol := mkUser 3 "carol@example.com" true true [] (profile "de").
(** a superuser whose account was deactivated *)
Definition dave := mkUser 4 "dave@example.com" false true [] (profile "en").
(** an editor whose account was deactivated after submitting *)
Definition erin := mkUser 5 "erin@example.com" false false [] (profile "en").

Definition news_page := mkPage 2 [1].

(** group 10 may publish below the root *)
Definition grant := mkGroupPagePermission 1 10 1 "publish".

Definition r1 := mkPageRevision 1 news_page alice.
Definition r2 := mkPageRevision 2 news_page erin.
Definition r3 := mkPageRevision 3 news_page bob.

Definition no_settings := mkSettings None None None None.
Definition html_settings := mkSettings None None None (Some true).

Definition render_all (language : Lang) (template : string) (c : Context)
  : outcome string :=
  Return (language ++ ":" ++ template ++ " ")%string.

(** a renderer whose templates are broken in one language *)
Definition render_but (broken : Lang) (language : Lang) (template : string)
           (c : Context) : outcome string :=
  if String.eqb language broken then Raise (TemplateError template)
  else render_all language template c.

Definition deliver (m : EmailMessage) : outcome nat := Return 1.

Definition translate (language : Lang) (text : string) : string := text.

Definition perms_of (u : User) (name : string) : bool :=
  is_active u && is_superuser u.

Definition site (st : Settings)
           (renderer : Lang -> string -> Context -> outcome string) : Env :=
  mkEnv st [r1; r2; r3] [alice; bob; carol; dave; erin] [grant]
        renderer deliver translate perms_of.

(** the site with no setting defined and every template in order *)
Definition plain : Env := site no_settings render_all.

(** the site with broken French templates *)
Definition broken_french : Env := site no_settings (render_but "fr").

(** the site with broken German templates *)
Definition broken_german : Env := site no_settings (render_but "de").

(** the site with HTML notifications *)
Definition with_html : Env := site html_settings render_all.

Definition dashboard : NamedView :=
  mkNamedView "dashboard" (fun _ _ => Return (Rendered "dashboard")).

(** a policy that lets active superusers do everything *)
Inductive SitePolicy := SuperusersOnly.

#[export] Instance site_policy : PermissionPolicy SitePolicy := {|
  user_has_permission := fun _ user _ => is_active user && is_superuser user;
  user_has_any_permission := fun _ user actions =>
    match actions with
    | [] => false
    | _ => is_active user && is_superuser user
    end
|}.

End Site.

(** ** user_has_any_page_permission *)

(** [GroupPagePermission.objects.filter(group__in=user.groups.all()).exists()] *)
Definition any_group_permission (env : Env) (user : User) : bool :=
  existsb (fun p => existsb (Nat.eqb (gpp_group p)) (groups user))
          (page_permissions env).

Definition user_has_any_page_permission (env : Env) (user : User) : bool :=
  if negb (is_active user) then false
  else if is_superuser user then true
  else if any_group_permission env user then true
  else false.

(** ** get_site_for_user *)

(** A site: its name, which may be missing or empty, and its host name. *)
Record WagtailSite := mkWagtailSite {
  site_name : option string;
  hostname : string
}.

(** The dictionary [get_site_for_user] returns. *)
Record SiteInfo := mkSiteInfo {
  info_root_page : option Page;
  info_root_site : option WagtailSite;
  info_site_name : string
}.

(** [get_site_for_user] returns its dictionary, or fails on the setting it
    reads when that setting is not defined. *)
Inductive site_outcome :=
| SiteReturn (info : SiteInfo)
| SiteAttributeError (name : string).

(** The collaborators are [get_explorable_root_page] of the navigation
    module, [Page.get_site] and the setting [WAGTAIL_SITE_NAME]. *)
Definition get_site_for_user
           (get_explorable_root_page : User -> option Page)
           (get_site : Page -> option WagtailSite)
           (WAGTAIL_SITE_NAME : option string)
           (user : User) : site_outcome :=
  let root_page := get_explorable_root_page user in
  let root_site :=
    match root_page with
    | Some page => get_site page
    | None => None
    end in
  let real_site_name :=
    match root_site with
    | Some st =>
        if opt_truthy (site_name st) then site_name st else Some (hostname st)
    | None => None
    end in
  match real_site_name with
  | Some name =>
      if str_truthy name then SiteReturn (mkSiteInfo root_page root_site name)
      else
        match WAGTAIL_SITE_NAME with
        | Some default_name =>
            SiteReturn (mkSiteInfo root_page root_site default_name)
        | None => SiteAttributeError "WAGTAIL_SITE_NAME"
        end
  | None =>
      match WAGTAIL_SITE_NAME with
      | Some default_name =>
          SiteReturn (mkSiteInfo root_page root_site default_name)
      | None => SiteAttributeError "WAGTAIL_SITE_NAME"
      end
  end.

(** ** What the statements on the dispatcher speak of *)

Definition is_resolver_call (e : Event) : bool :=
  match e with EvResolver _ _ _ => true | _ => false end.

(** The sender the settings give to a call of [send_mail] that names
    none: the result of its first statement. *)
Definition settings_sender (env : Env) : string :=
  sender_address (settings env) None.

(** A recorded call is, if it is a send, the send of a notification: one
    recipient, the header of automatic messages, a connection opened
    without credentials, and an HTML alternative at most when HTML
    notifications are on.  The sender is the one the settings give when
    that is an address; when it is the empty string it is replaced as the
    message is built, by the default address of the settings. *)
Definition notification_message (env : Env) (e : Event) : Prop :=
  match e with
  | EvSend m =>
      length (mail_to m) = 1
      /\ (settings_sender env <> "" -> mail_from m = settings_sender env)
      /\ (settings_sender env = "" ->
          forall default_sender,
            DEFAULT_FROM_EMAIL (settings env) = Some default_sender ->
            mail_from m = default_sender)
      /\ mail_headers m = [("Auto-Submitted", "auto-generated")]
      /\ mail_connection m = GetConnection None None None
      /\ (mail_alternatives m <> [] ->
          getattr_default (WAGTAILADMIN_NOTIFICATION_USE_HTML (settings env)) false
          = true)
  | _ => True
  end.

(** Whether the turn of the loop for [recipient] gets as far as the call
    of [send_mail]: the subject and the text render in the language of the
    recipient, and the HTML body, if there is one, renders in
    [language]. *)
Definition reaches_send (env : Env) (language : Lang) (notification : string)
           (context : Context) (recipient : User) : bool :=
  let context := set_user context recipient in
  let preferred := get_preferred_language (wagtail_userprofile recipient) in
  is_return (render env preferred (template_subject notification) context)
  && is_return (render env preferred (template_text notification) context)
  && (if getattr_default (WAGTAILADMIN_NOTIFICATION_USE_HTML (settings env)) false
      then is_return (render env language (template_html notification) context)
      else true).

(** A recorded call is, if it is a rendering, the rendering of one of the
    three templates of the notification for one of the users [us], with
    that user's preferred language active for the subject and the text,
    and with [language] active for the HTML body. *)
Definition rendered_for (language : Lang) (notification : string)
           (context : Context) (us : list User) (e : Event) : Prop :=
  match e with
  | EvRender active template c =>
      exists u,
        In u us
        /\ c = set_user context u
        /\ (((template = template_subject notification
              \/ template = template_text notification)
             /\ active = get_preferred_language (wagtail_userprofile u))
            \/ (template = template_html notification /\ active = language))
  | _ => True
  end.

(** The addresses the log entries name, in order. *)
Definition logged_addresses (t : list Event) : list string :=
  flat_map (fun e => match e with EvLog _ address => [address] | _ => [] end) t.

(** ** More of the small site *)

Module Demo.

(** a page below the news page *)
Definition article_page := mkPage 3 [1; 2].

(** a moderator of the articles only, member of group 11 *)
Definition frank := mkUser 6 "frank@example.com" true false [11] (Site.profile "en").

(** group 11 may publish below the article page, and lock it *)
Definition article_grant := mkGroupPagePermission 2 11 3 "publish".
Definition article_lock := mkGroupPagePermission 3 11 3 "lock".

Definition newsroom : Env :=
  mkEnv Site.no_settings [Site.r1]
        [Site.alice; Site.bob; Site.carol; Site.dave; frank]
        [Site.grant; article_grant; article_lock]
        Site.render_all Site.deliver Site.translate Site.perms_of.

(** a transport that refuses one address *)
Definition deliver_but (refused : string) (m : EmailMessage) : outcome nat :=
  if existsb (String.eqb refused) (mail_to m)
  then Raise (SMTPException refused)
  else Return 1.

Definition picky_transport : Env :=
  mkEnv Site.no_settings [Site.r1; Site.r2; Site.r3]
        [Site.alice; Site.bob; Site.carol; Site.dave; Site.erin] [Site.grant]
        Site.render_all (deliver_but "carol@example.com") Site.translate
        Site.perms_of.

Definition main_site := mkWagtailSite (Some "Newsroom") "news.example.com".
Definition unnamed_site := mkWagtailSite (Some "") "intranet.example.com".

Definition explorable_root (u : User) : option Page :=
  if is_superuser u then Some (mkPage 1 [])
  else if existsb (Nat.eqb 10) (groups u) then Some Site.news_page
  else None.

Definition site_of (p : Page) : option WagtailSite :=
  if Nat.eqb (page_pk p) 1 then Some main_site
  else if Nat.eqb (page_pk p) 2 then Some unnamed_site
  else None.

End Demo.

(** * Properties *)

(** ** send_mail: the sender *)

Lemma send_mail_run : forall L env subject message recipient_list from_email
                             kwargs (s : Lang * L),
  send_mail env subject message recipient_list from_email kwargs s
  = (mail_send env (build_mail (settings env) subject message recipient_list
                               from_email kwargs),
     s,
     [EvSend (build_mail (settings env) subject message recipient_list
                         from_email kwargs)]).
Proof.
  intros. unfold send_mail, bind, emit, lift_outcome. simpl.
  destruct (mail_send env _); reflexivity.
Qed.

Lemma constructor_keeps_sender : forall st addr,
  addr <> "" -> constructor_from_email st addr = addr.
Proof.
  intros st addr Haddr. unfold constructor_from_email.
  destruct addr; [contradiction | reflexivity].
Qed.



(** A sender setting that is defined but empty does not give a message
    without a sender: the message goes out from the default address. *)
Example empty_sender_setting_is_replaced :
  mail_from (build_mail (mkSettings (Some "") (Some "cms@example.com") None None)
                        "s" "b" ["bob@example.com"] None no_kwargs)
  = "cms@example.com".
Proof. reflexivity. Qed.

(** C10.  With a non-empty [from_email] argument the message goes out with
    exactly that sender, and the whole call is the same whatever the
    settings hold: the sender settings are not consulted. *)
Theorem send_mail_explicit_sender :
  forall L env subject message recipient_list addr kwargs (s : Lang * L),
    str_truthy addr = true ->
    (exists m,
        trace_of (send_mail env subject message recipient_list (Some addr) kwargs s)
        = [EvSend m]
        /\ mail_from m = addr)
    /\ forall st,
        send_mail (with_settings env st) subject message recipient_list
                  (Some addr) kwargs s
        = send_mail env subject message recipient_list (Some addr) kwargs s.
Proof.
  intros L env subject message recipient_list addr kwargs s Haddr.
  split.
  - rewrite send_mail_run. eexists. split; [reflexivity|].
    simpl. unfold sender_address, constructor_from_email.
    rewrite Haddr, Haddr. reflexivity.
  - intro st. rewrite !send_mail_run.
    unfold build_mail, sender_address, constructor_from_email.
    rewrite Haddr, Haddr. reflexivity.
Qed.

Lemma send_mail_explicit_sender_witness :
  (exists m,
      trace_of (send_mail (Site.site (mkSettings (Some "cms@example.com") None None None)
                                     Site.render_all)
                          "s" "b" ["bob@example.com"] (Some "me@example.com")
                          no_kwargs ("en", tt))
      = [EvSend m]
      /\ mail_from m = "me@example.com")
  /\ forall st,
      send_mail (with_settings
                   (Site.site (mkSettings (Some "cms@example.com") None None None)
                              Site.render_all) st)
                "s" "b" ["bob@example.com"] (Some "me@example.com") no_kwargs
                ("en", tt)
      = send_mail (Site.site (mkSettings (Some "cms@example.com") None None None)
                             Site.render_all)
                  "s" "b" ["bob@example.com"] (Some "me@example.com") no_kwargs
                  ("en", tt).
Proof.
  apply (@send_mail_explicit_sender unit
           (Site.site (mkSettings (Some "cms@example.com") None None None)
                      Site.render_all)
           "s" "b" ["bob@example.com"] "me@example.com" no_kwargs ("en", tt)).
  reflexivity.
Defined.

(** The settings do decide the sender when the argument is empty. *)
Example sender_from_settings :
  sender_address (mkSettings (Some "a@x") (Some "b@x") None None) (Some "") = "a@x"
  /\ sender_address (mkSettings None (Some "b@x") None None) None = "b@x"
  /\ sender_address Site.no_settings None = "webmaster@localhost".
Proof. repeat split. Qed.

(** [strip] removes white space at both ends, the no-break space (bytes
    194 160) and the em space (226 128 131) as well as the ASCII ones, and
    leaves the inside of the string and other characters alone, such as
    the zero-width space (226 128 139). *)
Example strip_removes_white_space :
  let bytes := fun ns => string_of_list_ascii (map ascii_of_nat ns) in
  strip (bytes [194; 160; 32; 226; 128; 131; 97; 194; 160; 98; 10; 194; 133])
  = bytes [97; 194; 160; 98]
  /\ strip (bytes [97; 226; 128; 139]) = bytes [97; 226; 128; 139]
  /\ strip "   " = ""
  /\ strip "" = "".
Proof. repeat split. Qed.

(** ** user_passes_test *)

Lemma call_view_run : forall L (v : NamedView) request args (s : Lang * L),
  call_view v request args s
  = (view_body v request args, s, [EvView (view_name v) request args]).
Proof.
  intros. unfold call_view, bind, emit, lift_outcome. simpl.
  destruct (view_body v request args); reflexivity.
Qed.

Lemma permission_denied_no_view : forall L env request (s : Lang * L),
  view_calls (trace_of (permission_denied env request s)) = [].
Proof.
  intros. unfold permission_denied.
  destruct (is_ajax request); reflexivity.
Qed.

Lemma user_passes_test_guards : forall L env test,
  guards env test (@user_passes_test L env test).
Proof.
  intros L env test v request args s. unfold user_passes_test.
  split; intro Htest; rewrite Htest.
  - rewrite call_view_run. split; reflexivity.
  - split; [reflexivity | apply permission_denied_no_view].
Qed.

Lemma any_perm_test_existsb : forall env perms user,
  any_perm_test env perms user = existsb (has_perm env user) perms.
Proof.
  intros env perms user. induction perms as [|perm rest IH]; simpl.
  - reflexivity.
  - rewrite IH. destruct (has_perm env user perm); reflexivity.
Qed.

(** C9.  The view made by [user_passes_test] runs the underlying view
    function on the same request and arguments when the test of
    [request.user] is true, and is the call of [permission_denied]
    otherwise, whatever the view function; on a recorded view this is one
    call of the view in the first case and none in the second.  The same
    holds for [permission_required], [any_permission_required],
    [require] and [require_any], each with its own test. *)
Theorem user_passes_test_runs_view_iff_test :
  forall L P (PP : PermissionPolicy P) env,
    (forall test (view_func : ViewFunc L) request args s,
        user_passes_test env test view_func request args s
        = if test (request_user request)
          then view_func request args s
          else permission_denied env request s)
    /\ (forall test, guards env test (@user_passes_test L env test))
    /\ (forall permission_name,
           guards env (fun user => has_perm env user permission_name)
                  (@permission_required L env permission_name))
    /\ (forall perms,
           guards env (fun user => existsb (has_perm env user) perms)
                  (@any_permission_required L env perms))
    /\ (forall (checker : PermissionPolicyChecker P) action,
           guards env (fun user => user_has_permission (policy checker) user action)
                  (@require L P PP env checker action))
    /\ (forall (checker : PermissionPolicyChecker P) actions,
           guards env
                  (fun user => user_has_any_permission (policy checker) user actions)
                  (@require_any L P PP env checker actions)).
Proof.
  intros L P PP env.
  split; [|split; [|split; [|split; [|split]]]].
  - intros test view_func request args s. unfold user_passes_test.
    destruct (test (request_user request)); reflexivity.
  - intro test. apply user_passes_test_guards.
  - intro permission_name. apply user_passes_test_guards.
  - intros perms v request args s. unfold any_permission_required.
    rewrite <- any_perm_test_existsb.
    apply (user_passes_test_guards env (any_perm_test env perms)).
  - intros checker action. apply user_passes_test_guards.
  - intros checker actions. apply user_passes_test_guards.
Qed.

Lemma user_passes_test_runs_view_iff_test_witness :
  permission_required Site.plain "wagtailadmin.access_admin"
                      (call_view Site.dashboard)
                      (mkRequest Site.carol false) ([], []) ("en", tt)
  = (Return (Rendered "dashboard"), ("en", tt),
     [EvView "dashboard" (mkRequest Site.carol false) ([], [])])
  /\ view_calls
       (trace_of (permission_required Site.plain "wagtailadmin.access_admin"
                                      (call_view Site.dashboard)
                                      (mkRequest Site.carol false) ([], [])
                                      ("en", tt)))
     = [("dashboard", mkRequest Site.carol false, ([], []))].
Proof.
  destruct (@user_passes_test_runs_view_iff_test
              unit Site.SitePolicy Site.site_policy Site.plain)
    as [_ [_ [Hrequired _]]].
  apply (proj1 (Hrequired "wagtailadmin.access_admin" Site.dashboard
                          (mkRequest Site.carol false) ([], []) ("en", tt))).
  reflexivity.
Defined.

(** A superuser reaches the view, a deactivated one is turned away, by a
    redirect or, for an AJAX request, by [PermissionDenied]. *)
Example dashboard_access :
  let guarded := permission_required Site.plain "wagtailadmin.access_admin"
                                     (call_view Site.dashboard) in
  guarded (mkRequest Site.carol false) ([], []) ("en", tt)
  = (Return (Rendered "dashboard"), ("en", tt),
     [EvView "dashboard" (mkRequest Site.carol false) ([], [])])
  /\ guarded (mkRequest Site.dave false) ([], []) ("en", tt)
     = (Return (Redirect "wagtailadmin_home"), ("en", tt),
        [EvMessageError "Sorry, you do not have permission to access this area."])
  /\ guarded (mkRequest Site.dave true) ([], []) ("en", tt)
     = (Raise PermissionDenied, ("en", tt), []).
Proof. repeat split. Qed.

(** ** Reasoning on computations: what they record and what they leave *)

Section Composition.

Variables (L : Type) (P : Event -> Prop).

Lemma records_ret : forall A (a : A), records P (@ret L A a).
Proof. intros A a s. constructor. Qed.

Lemma records_raise : forall A e, records P (@raise L A e).
Proof. intros A e s. constructor. Qed.

Lemma records_lift : forall A (o : outcome A), records P (@lift_outcome L A o).
Proof. intros A o s. constructor. Qed.

Lemma records_get_language : records P (@get_language L).
Proof. intros s. constructor. Qed.

Lemma records_get_locals : records P (@get_locals L).
Proof. intros s. constructor. Qed.

Lemma records_modify_locals : forall f, records P (@modify_locals L f).
Proof. intros f s. constructor. Qed.

Lemma records_emit : forall e, P e -> records P (@emit L e).
Proof. intros e He s. constructor; [assumption | constructor]. Qed.

Lemma records_bind : forall A B (m : M L A) (k : A -> M L B),
  records P m -> (forall a, records P (k a)) -> records P (bind m k).
Proof.
  intros A B m k Hm Hk s. unfold bind. specialize (Hm s).
  destruct (m s) as [[r s1] t1]. destruct r as [a|e]; simpl in *.
  - specialize (Hk a s1). destruct (k a s1) as [[r2 s2] t2]. simpl in *.
    apply Forall_app. split; assumption.
  - assumption.
Qed.

Lemma records_try_except : forall A (m : M L A) (h : exn -> M L A),
  records P m -> (forall e, records P (h e)) -> records P (try_except m h).
Proof.
  intros A m h Hm Hh s. unfold try_except. specialize (Hm s).
  destruct (m s) as [[r s1] t1]. destruct r as [a|e]; simpl in *.
  - assumption.
  - specialize (Hh e s1). destruct (h e s1) as [[r2 s2] t2]. simpl in *.
    apply Forall_app. split; assumption.
Qed.

Lemma records_override : forall A language (body : M L A),
  records P body -> records P (override language body).
Proof.
  intros A language body Hbody s. unfold override.
  specialize (Hbody (language, snd s)).
  destruct (body (language, snd s)) as [[r s1] t1]. assumption.
Qed.

Lemma records_for_each : forall A (Q : A -> Prop) (body : A -> M L unit) xs,
  (forall x, Q x -> records P (body x)) ->
  Forall Q xs -> records P (for_each xs body).
Proof.
  intros A Q body xs Hbody Hxs. induction Hxs as [|x rest Hx Hrest IH]; simpl.
  - apply records_ret.
  - apply records_bind; [apply Hbody; assumption | intros _; exact IH].
Qed.

Lemma keeps_ret : forall A (a : A), keeps_language (@ret L A a).
Proof. intros A a s. reflexivity. Qed.

Lemma keeps_raise : forall A e, keeps_language (@raise L A e).
Proof. intros A e s. reflexivity. Qed.

Lemma keeps_lift : forall A (o : outcome A), keeps_language (@lift_outcome L A o).
Proof. intros A o s. reflexivity. Qed.

Lemma keeps_emit : forall e, keeps_language (@emit L e).
Proof. intros e s. reflexivity. Qed.

Lemma keeps_get_language : keeps_language (@get_language L).
Proof. intros s. reflexivity. Qed.

Lemma keeps_get_locals : keeps_language (@get_locals L).
Proof. intros s. reflexivity. Qed.

Lemma keeps_modify_locals : forall f, keeps_language (@modify_locals L f).
Proof. intros f s. reflexivity. Qed.

Lemma keeps_bind : forall A B (m : M L A) (k : A -> M L B),
  keeps_language m -> (forall a, keeps_language (k a)) ->
  keeps_language (bind m k).
Proof.
  unfold keeps_language, language_after, bind.
  intros A B m k Hm Hk s. specialize (Hm s).
  destruct (m s) as [[r s1] t1]. destruct r as [a|e]; simpl in *.
  - specialize (Hk a s1). destruct (k a s1) as [[r2 s2] t2]. simpl in *.
    congruence.
  - assumption.
Qed.

Lemma keeps_try_except : forall A (m : M L A) (h : exn -> M L A),
  keeps_language m -> (forall e, keeps_language (h e)) ->
  keeps_language (try_except m h).
Proof.
  unfold keeps_language, language_after, try_except.
  intros A m h Hm Hh s. specialize (Hm s).
  destruct (m s) as [[r s1] t1]. destruct r as [a|e]; simpl in *.
  - assumption.
  - specialize (Hh e s1). destruct (h e s1) as [[r2 s2] t2]. simpl in *.
    congruence.
Qed.

(** [override] gives the language back whatever its body does. *)
Lemma keeps_override : forall A language (body : M L A),
  keeps_language (override language body).
Proof.
  intros A language body s. unfold override, language_after.
  destruct (body (language, snd s)) as [[r s1] t1]. reflexivity.
Qed.

Lemma keeps_for_each : forall A (body : A -> M L unit) xs,
  (forall x, keeps_language (body x)) -> keeps_language (for_each xs body).
Proof.
  intros A body xs Hbody. induction xs as [|x rest IH]; simpl.
  - apply keeps_ret.
  - apply keeps_bind; [apply Hbody | intros _; exact IH].
Qed.

End Composition.

Lemma keeps_send_mail : forall L env subject message recipient_list from_email kwargs,
  keeps_language (@send_mail L env subject message recipient_list from_email kwargs).
Proof.
  intros. intro s. rewrite send_mail_run. reflexivity.
Qed.

Lemma keeps_render_to_string : forall L env template context,
  keeps_language (@render_to_string L env template context).
Proof.
  intros. unfold render_to_string.
  apply keeps_bind; [apply keeps_get_language|]. intro language.
  apply keeps_bind; [apply keeps_emit|]. intros _. apply keeps_lift.
Qed.

Lemma keeps_read_local : forall name slot, keeps_language (read_local name slot).
Proof.
  intros. unfold read_local. apply keeps_bind; [apply keeps_get_locals|].
  intro l. destruct (slot l); [apply keeps_ret | apply keeps_raise].
Qed.

Lemma keeps_notify_recipient : forall env notification context recipient,
  keeps_language (notify_recipient env notification context recipient).
Proof.
  intros. unfold notify_recipient. apply keeps_try_except.
  - apply keeps_bind; [apply keeps_override|]. intros _.
    apply keeps_bind.
    + destruct (getattr_default _ false); [|apply keeps_ret].
      apply keeps_bind; [apply keeps_render_to_string|]. intro. apply keeps_ret.
    + intro html_message.
      apply keeps_bind; [apply keeps_read_local|]. intro subject.
      apply keeps_bind; [apply keeps_read_local|]. intro content.
      apply keeps_bind; [apply keeps_send_mail|]. intros _.
      apply keeps_modify_locals.
  - intros _. apply keeps_bind; [apply keeps_read_local|]. intro subject.
    apply keeps_emit.
Qed.

Lemma keeps_resolve_recipients : forall L env revision notification,
  keeps_language (@resolve_recipients L env revision notification).
Proof.
  intros. unfold resolve_recipients.
  destruct (String.eqb notification "submitted").
  - apply keeps_bind.
    + unfold call_users_with_page_permission.
      apply keeps_bind; [apply keeps_emit|]. intros _. apply keeps_ret.
    + intro. apply keeps_ret.
  - destruct (existsb _ _); apply keeps_ret.
Qed.

(** Whatever happens in a call of [send_notification], by a return or by
    an exception, the language that was active before is active after. *)
Lemma send_notification_keeps_language :
  forall env page_revision_id notification excluded_user_id,
    keeps_language
      (send_notification env page_revision_id notification excluded_user_id).
Proof.
  intros. unfold send_notification. apply keeps_bind.
  - unfold PageRevision_objects_get.
    destruct (lookup_revision _ _); [apply keeps_ret | apply keeps_raise].
  - intro revision. apply keeps_bind; [apply keeps_resolve_recipients|].
    intros [recipients|]; [|apply keeps_ret].
    destruct (filter _ recipients) as [|r rest]; [apply keeps_ret|].
    apply keeps_bind; [apply keeps_modify_locals|]. intros _.
    apply keeps_bind.
    + apply keeps_for_each. intro. apply keeps_notify_recipient.
    + intros _. apply keeps_bind; [apply keeps_get_locals|]. intro.
      apply keeps_ret.
Qed.

(** ** The steps of send_notification *)

Lemma resolve_recipients_run : forall L env revision notification (s : Lang * L),
  resolve_recipients env revision notification s
  = (Return (candidates env revision notification), s,
     resolver_trace env revision notification).
Proof.
  intros. unfold resolve_recipients, candidates, resolver_trace.
  destruct (String.eqb notification "submitted"); [reflexivity|].
  destruct (existsb _ _); reflexivity.
Qed.

(** For the three notifications the preference attribute exists: the
    [getattr] of the list comprehension does not fail. *)
Lemma recognized_has_preference : forall p notification,
  recognized notification = true ->
  getattr_profile p (notification ++ "_notifications")%string <> None.
Proof.
  intros p notification Hkind. unfold recognized in Hkind. simpl in Hkind.
  destruct (String.eqb notification "submitted") eqn:Hs.
  - apply String.eqb_eq in Hs. subst. discriminate.
  - destruct (String.eqb notification "rejected") eqn:Hr.
    + apply String.eqb_eq in Hr. subst. discriminate.
    + destruct (String.eqb notification "approved") eqn:Ha; [|discriminate].
      apply String.eqb_eq in Ha. subst. discriminate.
Qed.

Lemma recognized_candidates : forall env revision notification,
  recognized notification = false <-> candidates env revision notification = None.
Proof.
  intros. unfold recognized, candidates. simpl.
  destruct (String.eqb notification "submitted"); simpl; [split; discriminate|].
  destruct (String.eqb notification "rejected"); simpl; [split; discriminate|].
  destruct (String.eqb notification "approved"); simpl; split; congruence.
Qed.

Lemma dispatch_no_revision : forall env language id notification excluded,
  lookup_revision env id = None ->
  dispatch env language id notification excluded
  = (Raise DoesNotExist, (language, no_locals), []).
Proof.
  intros env language id notification excluded Hfind.
  unfold dispatch, send_notification, PageRevision_objects_get, bind.
  rewrite Hfind. reflexivity.
Qed.

Lemma dispatch_found : forall env language id notification excluded revision,
  lookup_revision env id = Some revision ->
  dispatch env language id notification excluded
  = match candidates env revision notification with
    | None => (Return false, (language, no_locals), [])
    | Some recipients =>
        match filter (wants_email notification excluded) recipients with
        | [] => (Return true, (language, no_locals),
                 resolver_trace env revision notification)
        | first :: others =>
            match for_each (first :: others)
                    (notify_recipient env notification
                       (mkContext revision (settings env) None))
                    (language, set_sent_count 0 no_locals) with
            | (Return _, s1, t) =>
                (Return (Nat.eqb (sent_count (snd s1)) (length (first :: others))),
                 s1, resolver_trace env revision notification ++ t)
            | (Raise e, s1, t) =>
                (Raise e, s1, resolver_trace env revision notification ++ t)
            end
        end
    end.
Proof.
  intros env language id notification excluded revision Hfind.
  unfold dispatch, send_notification, PageRevision_objects_get.
  rewrite Hfind.
  unfold bind at 1. unfold ret at 1. unfold bind at 1.
  rewrite resolve_recipients_run.
  destruct (candidates env revision notification) as [recipients|] eqn:Hcand.
  - destruct (filter (wants_email notification excluded) recipients)
      as [|first others] eqn:Hfilter.
    + unfold ret. simpl. rewrite !app_nil_r. reflexivity.
    + unfold bind at 1. unfold modify_locals at 1. cbn [fst snd app].
      unfold bind at 1.
      destruct (for_each (first :: others) _ _) as [[r s1] t].
      destruct r as [[]|e].
      * unfold bind, get_locals, ret. cbn [app]. rewrite !app_nil_r. reflexivity.
      * reflexivity.
  - unfold ret. simpl. unfold candidates in Hcand. unfold resolver_trace.
    destruct (String.eqb notification "submitted"); [discriminate|reflexivity].
Qed.

(** ** Unrecognized notifications *)

(** C5, as amended.  For a notification that is neither submitted, approved
    nor rejected, a call whose revision exists returns false and nothing is
    recorded: neither the resolver, nor the renderer, nor the transport is
    called.  The revision is looked up first, so a call whose revision does
    not exist raises [DoesNotExist], for these notifications as for the
    others. *)
Theorem unrecognized_notification_returns_false :
  forall env language id notification excluded,
    recognized notification = false ->
    dispatch env language id notification excluded
    = match lookup_revision env id with
      | Some _ => (Return false, (language, no_locals), [])
      | None => (Raise DoesNotExist, (language, no_locals), [])
      end.
Proof.
  intros env language id notification excluded Hkind.
  destruct (lookup_revision env id) as [revision|] eqn:Hfind.
  - rewrite (@dispatch_found env language id notification excluded revision Hfind).
    apply (recognized_candidates env revision) in Hkind. rewrite Hkind.
    reflexivity.
  - apply dispatch_no_revision. exact Hfind.
Qed.

Lemma unrecognized_notification_returns_false_witness :
  dispatch Site.plain "en" 1 "published" 1
  = (Return false, ("en", no_locals), []).
Proof.
  apply (@unrecognized_notification_returns_false
           Site.plain "en" 1 "published" 1).
  reflexivity.
Defined.

(** C5, as stated, fails: with an unrecognized notification and a revision
    id that does not resolve, the call raises instead of returning false. *)
Lemma unrecognized_notification_may_raise :
  recognized "published" = false
  /\ lookup_revision Site.plain 7 = None
  /\ result_of (dispatch Site.plain
                         "en" 7 "published" 1)
     = Raise DoesNotExist.
Proof. repeat split. Qed.

(** ** Nobody to notify *)

Lemma filter_none : forall A (f : A -> bool) xs,
  (forall x, In x xs -> f x = false) -> filter f xs = [].
Proof.
  intros A f xs Hall. induction xs as [|x rest IH]; simpl.
  - reflexivity.
  - rewrite (Hall x (or_introl eq_refl)). apply IH.
    intros y Hy. apply Hall. right. exact Hy.
Qed.

Lemma resolver_trace_no_send : forall env revision notification,
  filter is_send (resolver_trace env revision notification) = [].
Proof.
  intros. unfold resolver_trace.
  destruct (String.eqb notification "submitted"); reflexivity.
Qed.

(** C6.  When the revision is found, the notification is recognized and
    the filtered list of recipients is empty, [send_notification] returns
    true and the transport is not called.  This is so in particular when
    the only candidate is the excluded user, and when no candidate has an
    e-mail address. *)
Theorem nobody_to_notify_returns_true :
  forall env language id notification excluded revision recipients,
    lookup_revision env id = Some revision ->
    candidates env revision notification = Some recipients ->
    (filter (wants_email notification excluded) recipients = []
     \/ (exists u, recipients = [u] /\ pk u = excluded)
     \/ (forall u, In u recipients -> email u = "")) ->
    result_of (dispatch env language id notification excluded) = Return true
    /\ filter is_send (trace_of (dispatch env language id notification excluded))
       = [].
Proof.
  intros env language id notification excluded revision recipients
         Hfind Hcand Hempty.
  assert (Hfilter : filter (wants_email notification excluded) recipients = []).
  { destruct Hempty as [Hnone | [[u [Hsole Hpk]] | Hnomail]].
    - exact Hnone.
    - subst recipients. apply filter_none. intros x [Hx | []]. subst x.
      unfold wants_email. rewrite Hpk, Nat.eqb_refl.
      destruct (str_truthy (email u)); reflexivity.
    - apply filter_none. intros x Hx. unfold wants_email.
      rewrite (Hnomail x Hx). reflexivity. }
  rewrite (@dispatch_found env language id notification excluded revision Hfind).
  rewrite Hcand, Hfilter. split.
  - reflexivity.
  - apply resolver_trace_no_send.
Qed.

(** The submitter approves their own revision: nothing is sent. *)
Lemma nobody_to_notify_returns_true_witness :
  result_of (dispatch Site.plain
                      "en" 3 "approved" 2) = Return true
  /\ filter is_send
       (trace_of (dispatch Site.plain
                           "en" 3 "approved" 2)) = [].
Proof.
  apply (@nobody_to_notify_returns_true
           Site.plain
           "en" 3 "approved" 2 Site.r3 [Site.bob]).
  - reflexivity.
  - reflexivity.
  - right. left. exists Site.bob. split; reflexivity.
Defined.

(** ** The resolver *)

Lemma group_rows_nonempty : forall env g, group_rows env g <> [].
Proof.
  intros env g. unfold group_rows.
  destruct (filter _ (page_permissions env)); discriminate.
Qed.

Lemma joined_rows_nonempty : forall env u, joined_rows env u <> [].
Proof.
  intros env u. unfold joined_rows.
  destruct (groups u) as [|g gs]; [discriminate|]. simpl.
  pose proof (group_rows_nonempty env g) as Hg.
  destruct (group_rows env g); [contradiction | discriminate].
Qed.

(** Who the query returns: the active users of the table with a joined row
    that satisfies [q]. *)
Lemma resolver_member : forall env page ptype include_superusers u,
  In u (users_with_page_permission env page ptype include_superusers)
  <-> In u (users env)
      /\ is_active u = true
      /\ existsb (q_filter (perm_records env page ptype) include_superusers u)
                 (joined_rows env u) = true.
Proof.
  intros env page ptype include_superusers u.
  unfold users_with_page_permission, filtered_rows.
  rewrite nodup_In, in_flat_map. split.
  - intros [x [Hx Hu]]. apply filter_In in Hx. destruct Hx as [Hx Hactive].
    apply in_map_iff in Hu. destruct Hu as [row [Heq Hrow]]. subst x.
    apply filter_In in Hrow. destruct Hrow as [Hrow Hq].
    repeat split; try assumption.
    apply existsb_exists. exists row. split; assumption.
  - intros [Hu [Hactive Hq]]. apply existsb_exists in Hq.
    destruct Hq as [row [Hrow Hq]]. exists u. split.
    + apply filter_In. split; assumption.
    + apply in_map_iff. exists row. split; [reflexivity|].
      apply filter_In. split; assumption.
Qed.

Lemma map_injective_on : forall A B (f : A -> B) (t : list A) x y,
  NoDup (map f t) -> In x t -> In y t -> f x = f y -> x = y.
Proof.
  intros A B f t. induction t as [|a rest IH]; intros x y Hnd Hx Hy Hf.
  - destruct Hx.
  - simpl in Hnd. inversion Hnd as [|b l Hnotin Hrest]; subst.
    destruct Hx as [Hx | Hx], Hy as [Hy | Hy].
    + congruence.
    + subst a. exfalso. apply Hnotin. rewrite Hf. apply in_map. exact Hy.
    + subst a. exfalso. apply Hnotin. rewrite <- Hf. apply in_map. exact Hx.
    + apply IH; assumption.
Qed.

Lemma NoDup_map_within : forall A B (f : A -> B) (t l : list A),
  NoDup (map f t) -> incl l t -> NoDup l -> NoDup (map f l).
Proof.
  intros A B f t l Ht Hincl Hl. induction Hl as [|x rest Hnotin Hrest IH]; simpl.
  - constructor.
  - constructor.
    + intro Hfx. apply in_map_iff in Hfx. destruct Hfx as [y [Hfy Hy]].
      assert (y = x).
      { apply map_injective_on with (f := f) (t := t); try assumption.
        - apply Hincl. right. exact Hy.
        - apply Hincl. left. reflexivity. }
      subst y. contradiction.
    + apply IH. intros y Hy. apply Hincl. right. exact Hy.
Qed.

(** The result of the query has no row twice, and, in a table where no two
    users have the same primary key, no identity twice. *)
Lemma resolver_distinct : forall env page ptype include_superusers,
  NoDup (users_with_page_permission env page ptype include_superusers)
  /\ (NoDup (map pk (users env)) ->
      NoDup (map pk (users_with_page_permission env page ptype include_superusers))).
Proof.
  intros env page ptype include_superusers. split.
  - apply NoDup_nodup.
  - intro Hpk. apply NoDup_map_within with (t := users env).
    + exact Hpk.
    + intros u Hu. apply resolver_member in Hu. tauto.
    + apply NoDup_nodup.
Qed.

(** The resolver never returns a user who is not active. *)
Lemma resolver_active : forall env page ptype include_superusers u,
  In u (users_with_page_permission env page ptype include_superusers) ->
  is_active u = true.
Proof.
  intros env page ptype include_superusers u Hu.
  apply resolver_member in Hu. tauto.
Qed.

(** C7, as amended.  In a user table with distinct primary keys the
    resolver returns no identity twice, and a superuser of the table who
    is not covered by a matching group grant is returned if and only if
    [include_superusers] is true and the superuser is active. *)
Theorem resolver_distinct_and_superusers :
  forall env page ptype include_superusers,
    NoDup (map pk (users env)) ->
    NoDup (map pk (users_with_page_permission env page ptype include_superusers))
    /\ forall u,
        In u (users env) ->
        is_superuser u = true ->
        covered_by_grant env page ptype u = false ->
        (In u (users_with_page_permission env page ptype include_superusers)
         <-> include_superusers = true /\ is_active u = true).
Proof.
  intros env page ptype include_superusers Hpk. split.
  - apply resolver_distinct. exact Hpk.
  - intros u Hu Hsuper Hcovered. rewrite resolver_member.
    unfold covered_by_grant in Hcovered. unfold q_filter.
    destruct include_superusers.
    + rewrite Hsuper. split.
      * intros [_ [Hactive _]]. split; [reflexivity | exact Hactive].
      * intros [_ Hactive]. repeat split; try assumption.
        pose proof (joined_rows_nonempty env u) as Hrows.
        destruct (joined_rows env u) as [|row rows]; [contradiction|].
        simpl. rewrite orb_true_r. reflexivity.
    + split.
      * intros [_ [_ Hq]].
        change (existsb (q_in_perm (perm_records env page ptype))
                        (joined_rows env u) = true) in Hq.
        congruence.
      * intros [Hfalse _]. discriminate.
Qed.

Lemma resolver_distinct_and_superusers_witness :
  NoDup (map pk (users_with_page_permission
                   Site.plain
                   Site.news_page "publish" true))
  /\ (In Site.carol
         (users_with_page_permission
            Site.plain
            Site.news_page "publish" true)
      <-> true = true /\ is_active Site.carol = true).
Proof.
  destruct (@resolver_distinct_and_superusers
              Site.plain
              Site.news_page "publish" true) as [Hdistinct Hsuper].
  - simpl. repeat constructor; simpl; intuition discriminate.
  - split; [exact Hdistinct|].
    apply Hsuper.
    + simpl. tauto.
    + reflexivity.
    + reflexivity.
Defined.

(** C7, as stated, fails: with [include_superusers] true, a superuser of
    the table who is covered by no grant but is not active is left out. *)
Lemma inactive_superuser_left_out :
  In Site.dave (users Site.plain)
  /\ is_superuser Site.dave = true
  /\ covered_by_grant Site.plain Site.news_page "publish" Site.dave = false
  /\ ~ (In Site.dave
          (users_with_page_permission Site.plain Site.news_page "publish" true)
        <-> true = true).
Proof.
  split; [simpl; tauto|]. split; [reflexivity|]. split; [reflexivity|].
  intros [_ Hin]. specialize (Hin eq_refl).
  apply resolver_active in Hin. discriminate.
Qed.

(** Before [distinct], a member of two groups that both hold a grant comes
    twice; after it, once. *)
Example distinct_is_needed :
  let both := mkUser 9 "zoe@example.com" true false [10; 11] (Site.profile "en") in
  let env := mkEnv Site.no_settings [] [both]
                   [Site.grant; mkGroupPagePermission 2 11 2 "publish"]
                   Site.render_all Site.deliver Site.translate Site.perms_of in
  map pk (filtered_rows env Site.news_page "publish" false) = [9; 9]
  /\ map pk (users_with_page_permission env Site.news_page "publish" false) = [9].
Proof. split; reflexivity. Qed.

(** ** Who is written to *)

Lemma records_render_to_string : forall L (P : Event -> Prop) env template context,
  (forall language, P (EvRender language template context)) ->
  records P (@render_to_string L env template context).
Proof.
  intros L P env template context HP. unfold render_to_string.
  apply records_bind; [apply records_get_language|]. intro language.
  apply records_bind; [apply records_emit, HP|]. intros _. apply records_lift.
Qed.

Lemma records_send_mail :
  forall L (P : Event -> Prop) env subject message recipient_list from_email kwargs,
    P (EvSend (build_mail (settings env) subject message recipient_list
                          from_email kwargs)) ->
    records P (@send_mail L env subject message recipient_list from_email kwargs).
Proof.
  intros L P env subject message recipient_list from_email kwargs HP s.
  rewrite send_mail_run. constructor; [exact HP | constructor].
Qed.

Lemma records_read_local : forall (P : Event -> Prop) name slot,
  records P (read_local name slot).
Proof.
  intros P name slot. unfold read_local.
  apply records_bind; [apply records_get_locals|]. intro l.
  destruct (slot l); [apply records_ret | apply records_raise].
Qed.

Ltac records_steps :=
  repeat first
    [ apply records_ret | apply records_raise | apply records_lift
    | apply records_get_locals | apply records_get_language
    | apply records_modify_locals | apply records_read_local
    | apply records_override
    | apply records_render_to_string; intros; exact I
    | apply records_emit; exact I
    | apply records_bind; [|intro]
    | apply records_try_except; [|intro] ].

(** One turn of the loop writes to nobody but its recipient. *)
Lemma records_notify_recipient : forall env notification context us recipient,
  In recipient us ->
  records (addressed_to us) (notify_recipient env notification context recipient).
Proof.
  intros env notification context us recipient Hin. unfold notify_recipient.
  records_steps.
  - destruct (getattr_default _ false); records_steps.
  - apply records_send_mail. simpl. exists recipient. split; [exact Hin | reflexivity].
Qed.

Lemma records_loop : forall env notification context us,
  records (addressed_to us)
          (for_each us (notify_recipient env notification context)).
Proof.
  intros env notification context us.
  apply records_for_each with (Q := fun u => In u us).
  - intros u Hu. apply records_notify_recipient. exact Hu.
  - apply Forall_forall. intros u Hu. exact Hu.
Qed.

Lemma resolver_trace_addressed : forall env revision notification us,
  Forall (addressed_to us) (resolver_trace env revision notification).
Proof.
  intros. unfold resolver_trace.
  destruct (String.eqb notification "submitted"); repeat constructor.
Qed.

(** Every send of a call is a send to one user of the filtered list. *)
Lemma dispatch_addressed : forall env language id notification excluded revision,
  lookup_revision env id = Some revision ->
  Forall (addressed_to (filtered_recipients env revision notification excluded))
         (trace_of (dispatch env language id notification excluded)).
Proof.
  intros env language id notification excluded revision Hfind.
  rewrite (@dispatch_found env language id notification excluded revision Hfind).
  unfold filtered_recipients, email_recipients.
  destruct (candidates env revision notification) as [recipients|];
    cbn [option_map].
  - destruct (filter (wants_email notification excluded) recipients)
      as [|first others] eqn:Hfilter.
    + apply resolver_trace_addressed.
    + pose proof (@records_loop env notification
                    (mkContext revision (settings env) None) (first :: others)
                    (language, set_sent_count 0 no_locals)) as Hloop.
      destruct (for_each (first :: others) _ _) as [[r s1] t].
      destruct r as [a|e]; unfold trace_of in *; cbn [snd] in *;
        (apply Forall_app; split; [apply resolver_trace_addressed | exact Hloop]).
  - constructor.
Qed.

(** C3, as amended.  In a call whose revision is found, every send is
    addressed to one user of the filtered list.  For a submitted
    notification every user of that list is active.  For an approved or a
    rejected one the list holds nobody but the submitter of the revision,
    whose active flag is not looked at. *)
Theorem submitted_notifications_reach_active_users :
  forall env language id notification excluded revision,
    lookup_revision env id = Some revision ->
    Forall (addressed_to (filtered_recipients env revision notification excluded))
           (trace_of (dispatch env language id notification excluded))
    /\ (notification = "submitted" ->
        forall u, In u (filtered_recipients env revision notification excluded) ->
                  is_active u = true)
    /\ (notification = "approved" \/ notification = "rejected" ->
        forall u, In u (filtered_recipients env revision notification excluded) ->
                  u = revision_user revision).
Proof.
  intros env language id notification excluded revision Hfind.
  split; [apply dispatch_addressed; exact Hfind|]. split.
  - intros Hkind u Hu. subst notification.
    unfold filtered_recipients, email_recipients, candidates in Hu. simpl in Hu.
    apply filter_In in Hu. destruct Hu as [Hu _].
    apply resolver_active in Hu. exact Hu.
  - intros Hkind u Hu.
    unfold filtered_recipients, email_recipients, candidates in Hu.
    destruct Hkind; subst notification; cbn [String.eqb Ascii.eqb Bool.eqb
      existsb orb option_map] in Hu;
      apply filter_In in Hu; destruct Hu as [[Hu | []] _]; congruence.
Qed.

Lemma submitted_notifications_reach_active_users_witness :
  Forall (addressed_to (filtered_recipients Site.plain Site.r1 "submitted" 1))
         (trace_of (dispatch Site.plain "en" 1 "submitted" 1))
  /\ (forall u, In u (filtered_recipients Site.plain Site.r1 "submitted" 1) ->
                is_active u = true).
Proof.
  destruct (@submitted_notifications_reach_active_users
              Site.plain "en" 1 "submitted" 1 Site.r1 eq_refl)
    as [Hsends [Hsubmitted _]].
  split; [exact Hsends | exact (Hsubmitted eq_refl)].
Defined.

(** C3, as stated, fails: an approved notification goes to the submitter
    of the revision although the account is not active. *)
Lemma approved_notification_reaches_inactive_user :
  lookup_revision Site.plain 2 = Some Site.r2
  /\ revision_user Site.r2 = Site.erin
  /\ is_active Site.erin = false
  /\ filtered_recipients Site.plain Site.r2 "approved" 1 = [Site.erin]
  /\ sent_to (trace_of (dispatch Site.plain "en" 2 "approved" 1))
     = [email Site.erin]
  /\ result_of (dispatch Site.plain "en" 2 "approved" 1) = Return true.
Proof. repeat split. Qed.

(** ** One turn of the loop *)

Ltac run_turn :=
  unfold notify_recipient, attempt_succeeds in *;
  generalize dependent template_subject;
  generalize dependent template_text;
  generalize dependent template_html;
  generalize dependent set_user;
  intros;
  unfold render_to_string, read_local, send_mail in *;
  unfold try_except, bind, override, get_language, get_locals, modify_locals,
    emit, lift_outcome, ret, raise in *;
  simpl in *.

(** A turn that gets to the end of its [try] block counts one more send and
    leaves [email_subject] assigned. *)
Lemma turn_succeeds : forall env language notification context recipient l,
  attempt_succeeds env language notification context recipient = true ->
  exists l' t,
    notify_recipient env notification context recipient (language, l)
    = (Return tt, (language, l'), t)
    /\ sent_count l' = sent_count l + 1
    /\ email_subject l' <> None.
Proof.
  intros env language notification context recipient l Hok.
  run_turn.
  destruct (render env _ _ _) as [subject|]; [|discriminate]. simpl in *.
  destruct (render env _ _ _) as [content|]; [|discriminate]. simpl in *.
  destruct (getattr_default _ false); simpl in *.
  - destruct (render env language _ _) as [html|]; [|discriminate]. simpl in *.
    destruct (mail_send env _); [|discriminate]. simpl.
    eexists. eexists. split; [reflexivity|]. split; [reflexivity|discriminate].
  - destruct (mail_send env _); [|discriminate]. simpl.
    eexists. eexists. split; [reflexivity|]. split; [reflexivity|discriminate].
Qed.

(** A turn that fails while [email_subject] is assigned, from an earlier
    turn or from this one, is caught: the failure is logged, the count is
    unchanged and the loop goes on. *)
Lemma turn_fails_logged : forall env language notification context recipient l,
  attempt_succeeds env language notification context recipient = false ->
  email_subject l <> None
  \/ is_return (render env (get_preferred_language (wagtail_userprofile recipient))
                       (template_subject notification)
                       (set_user context recipient)) = true ->
  exists l' t subject,
    notify_recipient env notification context recipient (language, l)
    = (Return tt, (language, l'), t ++ [EvLog subject (email recipient)])
    /\ sent_count l' = sent_count l
    /\ email_subject l' = Some subject.
Proof.
  intros env language notification context recipient l Hfail Hbound.
  run_turn.
  destruct (render env _ _ _) as [subject|e]; simpl in *.
  - clear Hbound.
    destruct (render env _ _ _) as [content|e]; simpl in *.
    + destruct (getattr_default _ false); simpl in *.
      * destruct (render env language _ _) as [html|e]; simpl in *.
        -- destruct (mail_send env _); [discriminate|]. simpl.
           eexists. eexists [_; _; _; _]. eexists.
           split; [reflexivity|]. split; reflexivity.
        -- eexists. eexists [_; _; _]. eexists.
           split; [reflexivity|]. split; reflexivity.
      * destruct (mail_send env _); [discriminate|]. simpl.
        eexists. eexists [_; _; _]. eexists.
        split; [reflexivity|]. split; reflexivity.
    + eexists. eexists [_; _]. eexists.
      split; [reflexivity|]. split; reflexivity.
  - destruct Hbound as [Hbound | Hbound]; [|discriminate].
    destruct (email_subject l) as [subject|] eqn:Hsubject; [|contradiction].
    simpl. eexists. eexists [_]. eexists.
    split; [reflexivity|]. split; [reflexivity | exact Hsubject].
Qed.

(** A turn whose subject does not render while [email_subject] was never
    assigned: the handler itself raises, and the exception leaves the
    loop. *)
Lemma turn_raises : forall env language notification context recipient l,
  is_return (render env (get_preferred_language (wagtail_userprofile recipient))
                    (template_subject notification)
                    (set_user context recipient)) = false ->
  email_subject l = None ->
  notify_recipient env notification context recipient (language, l)
  = (Raise (UnboundLocalError "email_subject"), (language, l),
     [EvRender (get_preferred_language (wagtail_userprofile recipient))
               (template_subject notification) (set_user context recipient)]).
Proof.
  intros env language notification context recipient l Hrender Hunbound.
  run_turn.
  destruct (render env _ _ _) as [subject|e]; [discriminate|]. simpl.
  rewrite Hunbound. simpl. destruct l; reflexivity.
Qed.

(** ** The loop *)

Lemma filter_all_length : forall A (f : A -> bool) xs,
  length (filter f xs) = length xs <-> forallb f xs = true.
Proof.
  intros A f xs. induction xs as [|x rest IH]; simpl.
  - tauto.
  - destruct (f x); simpl.
    + rewrite <- IH. split; intro H; [injection H; tauto | f_equal; exact H].
    + pose proof (filter_length_le f rest). split; [lia | discriminate].
Qed.

(** Once [email_subject] is assigned the loop runs to its end whatever
    fails, and counts the turns that succeeded. *)
Lemma loop_once_bound : forall env language notification context us l,
  email_subject l <> None ->
  exists l' t,
    for_each us (notify_recipient env notification context) (language, l)
    = (Return tt, (language, l'), t)
    /\ sent_count l'
       = sent_count l
         + length (filter (attempt_succeeds env language notification context) us)
    /\ email_subject l' <> None.
Proof.
  intros env language notification context us.
  induction us as [|u rest IH]; intros l Hbound; simpl.
  - exists l, []. split; [reflexivity|]. split; [lia | exact Hbound].
  - unfold bind.
    destruct (attempt_succeeds env language notification context u) eqn:Hu.
    + destruct (turn_succeeds env language notification context u l Hu)
        as [l1 [t1 [Hrun [Hcount Hbound1]]]].
      rewrite Hrun.
      destruct (IH l1 Hbound1) as [l2 [t2 [Hrest [Hcount2 Hbound2]]]].
      rewrite Hrest. exists l2, (t1 ++ t2).
      split; [reflexivity|]. split; [simpl; lia | exact Hbound2].
    + destruct (@turn_fails_logged env language notification context u l Hu
                  (or_introl Hbound))
        as [l1 [t1 [subject [Hrun [Hcount Hbound1]]]]].
      rewrite Hrun.
      assert (Hbound1' : email_subject l1 <> None) by congruence.
      destruct (IH l1 Hbound1') as [l2 [t2 [Hrest [Hcount2 Hbound2]]]].
      rewrite Hrest. eexists. eexists.
      split; [reflexivity|]. split; [lia | exact Hbound2].
Qed.

(** In general the loop either runs to its end and counts the turns that
    succeeded, or is left by the exception of the handler, in a turn that
    did not succeed. *)
Lemma loop_outcome : forall env language notification context us l,
  (exists l' t,
      for_each us (notify_recipient env notification context) (language, l)
      = (Return tt, (language, l'), t)
      /\ sent_count l'
         = sent_count l
           + length (filter (attempt_succeeds env language notification context) us))
  \/ (exists l' t,
         for_each us (notify_recipient env notification context) (language, l)
         = (Raise (UnboundLocalError "email_subject"), (language, l'), t)
         /\ forallb (attempt_succeeds env language notification context) us = false).
Proof.
  intros env language notification context us.
  induction us as [|u rest IH]; intros l; simpl.
  - left. exists l, []. split; [reflexivity | lia].
  - unfold bind.
    destruct (attempt_succeeds env language notification context u) eqn:Hu.
    + destruct (turn_succeeds env language notification context u l Hu)
        as [l1 [t1 [Hrun [Hcount Hbound1]]]].
      rewrite Hrun.
      destruct (@loop_once_bound env language notification context rest l1 Hbound1)
        as [l2 [t2 [Hrest [Hcount2 _]]]].
      rewrite Hrest. left. eexists. eexists.
      split; [reflexivity | simpl; lia].
    + destruct (email_subject l) as [previous|] eqn:Hsubject.
      * assert (Hbound : email_subject l <> None) by congruence.
        destruct (@turn_fails_logged env language notification context u l Hu
                    (or_introl Hbound))
          as [l1 [t1 [subject [Hrun [Hcount Hbound1]]]]].
        rewrite Hrun.
        assert (Hbound1' : email_subject l1 <> None) by congruence.
        destruct (@loop_once_bound env language notification context rest l1
                    Hbound1')
          as [l2 [t2 [Hrest [Hcount2 _]]]].
        rewrite Hrest. left. eexists. eexists.
        split; [reflexivity | lia].
      * destruct (is_return
                    (render env (get_preferred_language (wagtail_userprofile u))
                            (template_subject notification) (set_user context u)))
          eqn:Hrender.
        -- destruct (@turn_fails_logged env language notification context u l Hu
                       (or_intror Hrender))
             as [l1 [t1 [subject [Hrun [Hcount Hbound1]]]]].
           rewrite Hrun.
           assert (Hbound1' : email_subject l1 <> None) by congruence.
           destruct (@loop_once_bound env language notification context rest l1
                       Hbound1')
             as [l2 [t2 [Hrest [Hcount2 _]]]].
           rewrite Hrest. left. eexists. eexists.
           split; [reflexivity | lia].
        -- rewrite (turn_raises env language notification context u l
                      Hrender Hsubject).
           right. eexists. eexists. split; reflexivity.
Qed.

(** When the revision is found and the notification is recognized, the
    call returns true exactly when the turn of every filtered recipient
    succeeds. *)
Lemma dispatch_true_iff_all_succeed :
  forall env language id notification excluded revision,
    lookup_revision env id = Some revision ->
    recognized notification = true ->
    (result_of (dispatch env language id notification excluded) = Return true
     <-> forallb (attempt_succeeds env language notification
                    (mkContext revision (settings env) None))
                 (filtered_recipients env revision notification excluded)
         = true).
Proof.
  intros env language id notification excluded revision Hfind Hkind.
  rewrite (@dispatch_found env language id notification excluded revision Hfind).
  unfold filtered_recipients, email_recipients.
  destruct (candidates env revision notification) as [recipients|] eqn:Hcand;
    cbn [option_map].
  - destruct (filter (wants_email notification excluded) recipients)
      as [|first others] eqn:Hfilter.
    + simpl. tauto.
    + destruct (loop_outcome env language notification
                  (mkContext revision (settings env) None) (first :: others)
                  (set_sent_count 0 no_locals))
        as [[l' [t [Hrun Hcount]]] | [l' [t [Hrun Hfail]]]];
        rewrite Hrun; unfold result_of; cbn [fst snd].
      * rewrite Hcount. cbn [sent_count set_sent_count no_locals Nat.add].
        rewrite <- filter_all_length. split.
        -- intro H. injection H as H. apply Nat.eqb_eq. exact H.
        -- intro H. rewrite H, Nat.eqb_refl. reflexivity.
      * rewrite Hfail. split; discriminate.
  - apply recognized_candidates in Hcand. congruence.
Qed.

(** When the subject of the first filtered recipient does not render, the
    call is left by [UnboundLocalError] and no message is sent, to this
    recipient or to the others. *)
Lemma first_subject_failure_escapes :
  forall env language id notification excluded revision first others,
    lookup_revision env id = Some revision ->
    filtered_recipients env revision notification excluded = first :: others ->
    is_return (render env (get_preferred_language (wagtail_userprofile first))
                      (template_subject notification)
                      (mkContext revision (settings env) (Some first))) = false ->
    result_of (dispatch env language id notification excluded)
    = Raise (UnboundLocalError "email_subject")
    /\ filter is_send (trace_of (dispatch env language id notification excluded))
       = [].
Proof.
  intros env language id notification excluded revision first others
         Hfind Hfiltered Hrender.
  rewrite (@dispatch_found env language id notification excluded revision Hfind).
  unfold filtered_recipients, email_recipients in Hfiltered.
  destruct (candidates env revision notification) as [recipients|];
    cbn [option_map] in Hfiltered; [|discriminate].
  rewrite Hfiltered.
  assert (Hloop :
            for_each (first :: others)
              (notify_recipient env notification
                 (mkContext revision (settings env) None))
              (language, set_sent_count 0 no_locals)
            = (Raise (UnboundLocalError "email_subject"),
               (language, set_sent_count 0 no_locals),
               [EvRender (get_preferred_language (wagtail_userprofile first))
                         (template_subject notification)
                         (mkContext revision (settings env) (Some first))])).
  { cbn [for_each]. unfold bind.
    rewrite (@turn_raises env language notification
               (mkContext revision (settings env) None) first
               (set_sent_count 0 no_locals) Hrender eq_refl).
    reflexivity. }
  rewrite Hloop. unfold result_of, trace_of. cbn [fst snd].
  split; [reflexivity|].
  rewrite filter_app, resolver_trace_no_send. reflexivity.
Qed.

(** When the revision is found and the subject of the first filtered
    recipient renders, the call returns, true or false, whatever fails
    after that. *)
Lemma dispatch_returns_once_subject_renders :
  forall env language id notification excluded revision,
    lookup_revision env id = Some revision ->
    (forall first others,
        filtered_recipients env revision notification excluded = first :: others ->
        is_return (render env (get_preferred_language (wagtail_userprofile first))
                          (template_subject notification)
                          (mkContext revision (settings env) (Some first))) = true) ->
    exists b, result_of (dispatch env language id notification excluded) = Return b.
Proof.
  intros env language id notification excluded revision Hfind Hfirst.
  rewrite (@dispatch_found env language id notification excluded revision Hfind).
  unfold filtered_recipients, email_recipients in Hfirst.
  destruct (candidates env revision notification) as [recipients|];
    cbn [option_map] in Hfirst; [|exists false; reflexivity].
  destruct (filter (wants_email notification excluded) recipients)
    as [|first others]; [exists true; reflexivity|].
  specialize (Hfirst first others eq_refl).
  set (context := mkContext revision (settings env) None).
  assert (Hloop : exists l' t,
             for_each (first :: others) (notify_recipient env notification context)
                      (language, set_sent_count 0 no_locals)
             = (Return tt, (language, l'), t)).
  { cbn [for_each]. unfold bind.
    destruct (attempt_succeeds env language notification context first) eqn:Hok.
    - destruct (turn_succeeds env language notification context first
                  (set_sent_count 0 no_locals) Hok)
        as [l1 [t1 [Hrun [_ Hbound]]]].
      rewrite Hrun.
      destruct (@loop_once_bound env language notification context others l1 Hbound)
        as [l2 [t2 [Hrest _]]].
      rewrite Hrest. eexists. eexists. reflexivity.
    - destruct (@turn_fails_logged env language notification context first
                  (set_sent_count 0 no_locals) Hok (or_intror Hfirst))
        as [l1 [t1 [subject [Hrun [_ Hbound]]]]].
      rewrite Hrun.
      assert (Hbound' : email_subject l1 <> None) by congruence.
      destruct (@loop_once_bound env language notification context others l1 Hbound')
        as [l2 [t2 [Hrest _]]].
      rewrite Hrest. eexists. eexists. reflexivity. }
  destruct Hloop as [l' [t Hloop]]. rewrite Hloop.
  eexists. reflexivity.
Qed.

(** ** The handler of the loop and the scope of the language override *)

(** C1.  The revision is found, the notification is recognized and the
    only filtered recipient is Bob, whose subject template does not
    render.  The failure is caught, but the handler reads [email_subject],
    which no turn has assigned yet: the call is left by
    [UnboundLocalError] instead of returning false, and nothing is
    logged. *)
Theorem render_failure_escapes_the_handler :
  lookup_revision Site.broken_french 3 = Some Site.r3
  /\ filtered_recipients Site.broken_french Site.r3 "approved" 3 = [Site.bob]
  /\ render Site.broken_french "fr" (template_subject "approved")
            (mkContext Site.r3 Site.no_settings (Some Site.bob))
     = Raise (TemplateError (template_subject "approved"))
  /\ dispatch Site.broken_french "en" 3 "approved" 3
     = (Raise (UnboundLocalError "email_subject"),
        ("en", no_locals),
        [EvRender "fr" (template_subject "approved")
                  (mkContext Site.r3 Site.no_settings (Some Site.bob))]).
Proof. repeat split. Qed.

(** A failure in a later turn is logged and the call returns false, but
    the subject in the log is the one rendered for the recipient before. *)
Example later_failure_logs_previous_subject :
  filtered_recipients Site.broken_german Site.r1 "submitted" 1
  = [Site.bob; Site.carol]
  /\ result_of (dispatch Site.broken_german "en" 1 "submitted" 1) = Return false
  /\ sent_to (trace_of (dispatch Site.broken_german "en" 1 "submitted" 1))
     = ["bob@example.com"]
  /\ filter (fun e => match e with EvLog _ _ => true | _ => false end)
            (trace_of (dispatch Site.broken_german "en" 1 "submitted" 1))
     = [EvLog "fr:wagtailadmin/notifications/submitted_subject.txt"
              "carol@example.com"].
Proof. repeat split. Qed.

(** C2.  HTML notifications are on, the call is made with English active,
    and the only filtered recipient is Bob, who prefers French.  The
    subject and the text are rendered with French active; the HTML body is
    rendered after the override is left, with English active again.  The
    language is English after the call. *)
Theorem html_body_rendered_outside_the_override :
  filtered_recipients Site.with_html Site.r3 "approved" 3 = [Site.bob]
  /\ get_preferred_language (wagtail_userprofile Site.bob) = "fr"
  /\ dispatch Site.with_html "en" 3 "approved" 3
     = (Return true,
        ("en",
         mkLocals (Some "fr:wagtailadmin/notifications/approved_subject.txt")
                  (Some "fr:wagtailadmin/notifications/approved.txt") 1),
        [EvRender "fr" (template_subject "approved")
                  (mkContext Site.r3 Site.html_settings (Some Site.bob));
         EvRender "fr" (template_text "approved")
                  (mkContext Site.r3 Site.html_settings (Some Site.bob));
         EvRender "en" (template_html "approved")
                  (mkContext Site.r3 Site.html_settings (Some Site.bob));
         EvSend (mkEmailMessage
                   "fr:wagtailadmin/notifications/approved_subject.txt"
                   "fr:wagtailadmin/notifications/approved.txt"
                   "webmaster@localhost" ["bob@example.com"]
                   (GetConnection None None None)
                   [("Auto-Submitted", "auto-generated")]
                   [("en:wagtailadmin/notifications/approved.html ",
                     "text/html")])]).
Proof. repeat split. Qed.

(** C4.  Bob and Carol are the filtered recipients, in this order; Carol's
    turn would succeed, Bob's subject does not render.  The failure of
    Bob's turn leaves the loop: the call raises instead of returning
    false, and no send is attempted for Carol. *)
Theorem first_failure_aborts_the_loop :
  lookup_revision Site.broken_french 1 = Some Site.r1
  /\ filtered_recipients Site.broken_french Site.r1 "submitted" 1
     = [Site.bob; Site.carol]
  /\ attempt_succeeds Site.broken_french "en" "submitted"
                      (mkContext Site.r1 Site.no_settings None) Site.carol = true
  /\ result_of (dispatch Site.broken_french "en" 1 "submitted" 1)
     = Raise (UnboundLocalError "email_subject")
  /\ sent_to (trace_of (dispatch Site.broken_french "en" 1 "submitted" 1)) = []
  /\ filter is_render (trace_of (dispatch Site.broken_french "en" 1 "submitted" 1))
     = [EvRender "fr" (template_subject "submitted")
                 (mkContext Site.r1 Site.no_settings (Some Site.bob))].
Proof. repeat split. Qed.

(** ** The scenarios of the specification *)

(** A revision by Alice is submitted: the moderator of the group that may
    publish and the active superuser are written to, each in their own
    language, and the call returns true. *)
Example scenario_submitted :
  map pk (filtered_recipients Site.plain Site.r1 "submitted" 1) = [2; 3]
  /\ result_of (dispatch Site.plain "en" 1 "submitted" 1) = Return true
  /\ sent_to (trace_of (dispatch Site.plain "en" 1 "submitted" 1))
     = ["bob@example.com"; "carol@example.com"]
  /\ language_after (dispatch Site.plain "en" 1 "submitted" 1) = "en".
Proof. repeat split. Qed.

(** The same, the moderator having turned submitted notifications off. *)
Example scenario_opted_out :
  let quiet_bob := mkUser 2 "bob@example.com" true false [10]
                          (mkUserProfile false true true "fr") in
  let env := mkEnv Site.no_settings [Site.r1] [Site.alice; quiet_bob; Site.carol]
                   [Site.grant] Site.render_all Site.deliver Site.translate
                   Site.perms_of in
  result_of (dispatch env "en" 1 "submitted" 1) = Return true
  /\ sent_to (trace_of (dispatch env "en" 1 "submitted" 1)) = ["carol@example.com"].
Proof. split; reflexivity. Qed.

(** * Further properties of the module *)

(** ** users_with_page_permission *)

(** X1.  Every user the resolver returns is a row of the user table and
    is active, whatever the page, the permission type and the flag. *)
Theorem resolver_returns_active_table_users :
  forall env page ptype include_superusers,
    Forall (fun u => In u (users env) /\ is_active u = true)
           (users_with_page_permission env page ptype include_superusers).
Proof.
  intros env page ptype include_superusers. apply Forall_forall.
  intros u Hu. apply resolver_member in Hu. tauto.
Qed.

Lemma group_rows_Some : forall env g p,
  In (Some p) (group_rows env g)
  <-> In p (page_permissions env) /\ gpp_group p = g.
Proof.
  intros env g p. unfold group_rows.
  destruct (filter (fun p0 => Nat.eqb (gpp_group p0) g) (page_permissions env))
    as [|p1 ps] eqn:Hfilter.
  - split.
    + intros [Habsurd | []]. discriminate.
    + intros [Hin Hg].
      assert (Hp : In p (filter (fun p0 => Nat.eqb (gpp_group p0) g)
                                (page_permissions env))).
      { apply filter_In. split; [exact Hin | apply Nat.eqb_eq; exact Hg]. }
      rewrite Hfilter in Hp. destruct Hp.
  - rewrite <- Hfilter. split.
    + intro Hin. apply in_map_iff in Hin. destruct Hin as [p' [Heq Hp']].
      injection Heq as Heq. subst p'. apply filter_In in Hp'.
      destruct Hp' as [Hp' Hg]. apply Nat.eqb_eq in Hg. tauto.
    + intros [Hin Hg]. apply in_map. apply filter_In.
      split; [exact Hin | apply Nat.eqb_eq; exact Hg].
Qed.

(** The permission records joined to a user are those of the user's
    groups. *)
Lemma joined_rows_Some : forall env u p,
  In (Some p) (joined_rows env u)
  <-> In p (page_permissions env) /\ In (gpp_group p) (groups u).
Proof.
  intros env u p. unfold joined_rows.
  destruct (groups u) as [|g gs] eqn:Hgroups.
  - split.
    + intros [Habsurd | []]. discriminate.
    + intros [_ []].
  - rewrite in_flat_map. split.
    + intros [g' [Hg' Hrow]]. apply group_rows_Some in Hrow.
      destruct Hrow as [Hin Heq]. subst g'. tauto.
    + intros [Hin Hg]. exists (gpp_group p). split; [exact Hg|].
      apply group_rows_Some. tauto.
Qed.

Lemma perm_records_In : forall env page ptype p,
  In p (perm_records env page ptype)
  <-> In p (page_permissions env)
      /\ permission_type p = ptype
      /\ In (gpp_page p) (ancestors_and_self page).
Proof.
  intros env page ptype p. unfold perm_records. rewrite filter_In.
  rewrite andb_true_iff, String.eqb_eq, existsb_exists. split.
  - intros [Hin [Htype [x [Hx Heq]]]]. apply Nat.eqb_eq in Heq. subst x. tauto.
  - intros [Hin [Htype Hpage]]. repeat split; try assumption.
    exists (gpp_page p). split; [exact Hpage | apply Nat.eqb_refl].
Qed.

(** X2.  In a permission table with distinct ids, and superusers not
    being asked for, the resolver returns a user exactly when the user is
    an active row of the user table and one of the user's groups holds a
    record of the requested type on the page or on one of its ancestors. *)
Theorem resolver_without_superusers_iff_grant :
  forall env page ptype u,
    NoDup (map gpp_id (page_permissions env)) ->
    (In u (users_with_page_permission env page ptype false)
     <-> In u (users env)
         /\ is_active u = true
         /\ exists p,
             In p (page_permissions env)
             /\ permission_type p = ptype
             /\ In (gpp_page p) (ancestors_and_self page)
             /\ In (gpp_group p) (groups u)).
Proof.
  intros env page ptype u Hids. rewrite resolver_member.
  unfold q_filter.
  change (fun row => q_in_perm (perm_records env page ptype) row)
    with (q_in_perm (perm_records env page ptype)).
  rewrite existsb_exists. split.
  - intros [Hu [Hactive [row [Hrow Hq]]]]. repeat split; try assumption.
    destruct row as [p|]; [|discriminate]. simpl in Hq.
    apply existsb_exists in Hq. destruct Hq as [p' [Hp' Hid]].
    apply Nat.eqb_eq in Hid. apply joined_rows_Some in Hrow.
    destruct Hrow as [Hp Hgroup].
    assert (p' = p).
    { apply map_injective_on with (f := gpp_id) (t := page_permissions env);
        try assumption.
      apply perm_records_In in Hp'. tauto. }
    subst p'. apply perm_records_In in Hp'.
    exists p. tauto.
  - intros [Hu [Hactive [p [Hp [Htype [Hpage Hgroup]]]]]].
    repeat split; try assumption.
    exists (Some p). split.
    + apply joined_rows_Some. tauto.
    + simpl. apply existsb_exists. exists p. split.
      * apply perm_records_In. tauto.
      * apply Nat.eqb_refl.
Qed.

Lemma resolver_without_superusers_iff_grant_witness :
  In Demo.frank
     (users_with_page_permission Demo.newsroom Demo.article_page "publish" false)
  <-> In Demo.frank (users Demo.newsroom)
      /\ is_active Demo.frank = true
      /\ exists p,
          In p (page_permissions Demo.newsroom)
          /\ permission_type p = "publish"
          /\ In (gpp_page p) (ancestors_and_self Demo.article_page)
          /\ In (gpp_group p) (groups Demo.frank).
Proof.
  apply (@resolver_without_superusers_iff_grant
           Demo.newsroom Demo.article_page "publish" Demo.frank).
  simpl. repeat constructor; simpl; intuition discriminate.
Defined.

Lemma q_filter_inherited : forall env page page' ptype include_superusers u row,
  incl (ancestors_and_self page) (ancestors_and_self page') ->
  q_filter (perm_records env page ptype) include_superusers u row = true ->
  q_filter (perm_records env page' ptype) include_superusers u row = true.
Proof.
  intros env page page' ptype include_superusers u row Hincl.
  assert (Hq : q_in_perm (perm_records env page ptype) row = true ->
               q_in_perm (perm_records env page' ptype) row = true).
  { destruct row as [p|]; simpl; [|discriminate].
    rewrite !existsb_exists. intros [p' [Hp' Hid]]. exists p'.
    split; [|exact Hid]. apply perm_records_In in Hp'. apply perm_records_In.
    destruct Hp' as [Hin [Htype Hpage]]. repeat split; try assumption.
    apply Hincl. exact Hpage. }
  unfold q_filter. destruct include_superusers.
  - rewrite !orb_true_iff. tauto.
  - exact Hq.
Qed.

(** X3.  Permissions are inherited downwards: when the ancestor chain of
    a page, the page included, lies within that of another page, every
    user resolved for the first page is resolved for the second. *)
Theorem resolver_inherits_from_ancestors :
  forall env page page' ptype include_superusers,
    incl (ancestors_and_self page) (ancestors_and_self page') ->
    incl (users_with_page_permission env page ptype include_superusers)
         (users_with_page_permission env page' ptype include_superusers).
Proof.
  intros env page page' ptype include_superusers Hincl u Hu.
  apply resolver_member in Hu. apply resolver_member.
  destruct Hu as [Hin [Hactive Hq]]. repeat split; try assumption.
  apply existsb_exists in Hq. destruct Hq as [row [Hrow Hq]].
  apply existsb_exists. exists row. split; [exact Hrow|].
  apply q_filter_inherited with (page := page); assumption.
Qed.

Lemma resolver_inherits_from_ancestors_witness :
  incl (users_with_page_permission Demo.newsroom Site.news_page "publish" true)
       (users_with_page_permission Demo.newsroom Demo.article_page "publish" true).
Proof.
  apply (@resolver_inherits_from_ancestors
           Demo.newsroom Site.news_page Demo.article_page "publish" true).
  intros x Hx. simpl in *. tauto.
Defined.

(** The grant on the article page serves the articles, not the pages
    above them. *)
Example grant_does_not_climb :
  map pk (users_with_page_permission Demo.newsroom Demo.article_page "publish" false)
  = [2; 6]
  /\ map pk (users_with_page_permission Demo.newsroom Site.news_page "publish" false)
     = [2].
Proof. split; reflexivity. Qed.

(** X4.  Asking for superusers only adds users, and only superusers:
    whoever is resolved without the flag is resolved with it, and whoever
    is resolved with it is a superuser or is resolved without it. *)
Theorem resolver_flag_adds_only_superusers :
  forall env page ptype,
    incl (users_with_page_permission env page ptype false)
         (users_with_page_permission env page ptype true)
    /\ Forall (fun u => is_superuser u = true
                        \/ In u (users_with_page_permission env page ptype false))
              (users_with_page_permission env page ptype true).
Proof.
  intros env page ptype. split.
  - intros u Hu. apply resolver_member in Hu. apply resolver_member.
    destruct Hu as [Hin [Hactive Hq]]. repeat split; try assumption.
    apply existsb_exists in Hq. destruct Hq as [row [Hrow Hq]].
    apply existsb_exists. exists row. split; [exact Hrow|].
    unfold q_filter in *. rewrite Hq. reflexivity.
  - apply Forall_forall. intros u Hu. apply resolver_member in Hu.
    destruct Hu as [Hin [Hactive Hq]].
    apply existsb_exists in Hq. destruct Hq as [row [Hrow Hq]].
    unfold q_filter in Hq. apply orb_true_iff in Hq.
    destruct Hq as [Hq | Hsuper]; [right | left; exact Hsuper].
    apply resolver_member. repeat split; try assumption.
    apply existsb_exists. exists row. split; [exact Hrow | exact Hq].
Qed.

Lemma flat_map_nil : forall A B (f : A -> list B) xs,
  (forall x, In x xs -> f x = []) -> flat_map f xs = [].
Proof.
  intros A B f xs Hall. induction xs as [|x rest IH]; simpl.
  - reflexivity.
  - rewrite (Hall x (or_introl eq_refl)). apply IH.
    intros y Hy. apply Hall. right. exact Hy.
Qed.

(** X5.  When no record of the requested type exists on the page or on an
    ancestor, and superusers are not asked for, the resolver returns the
    empty list. *)
Theorem resolver_without_grants_is_empty :
  forall env page ptype,
    perm_records env page ptype = [] ->
    users_with_page_permission env page ptype false = [].
Proof.
  intros env page ptype Hperm.
  unfold users_with_page_permission, filtered_rows. rewrite Hperm.
  rewrite flat_map_nil; [reflexivity|].
  intros u _. rewrite filter_none; [reflexivity|].
  intros row _. unfold q_filter. destruct row; reflexivity.
Qed.

Lemma resolver_without_grants_is_empty_witness :
  users_with_page_permission Demo.newsroom Site.news_page "lock" false = [].
Proof.
  apply (@resolver_without_grants_is_empty Demo.newsroom Site.news_page "lock").
  reflexivity.
Defined.

(** ** user_has_any_page_permission *)

Lemma any_group_permission_iff : forall env u,
  any_group_permission env u = true
  <-> exists p, In p (page_permissions env) /\ In (gpp_group p) (groups u).
Proof.
  intros env u. unfold any_group_permission. rewrite existsb_exists. split.
  - intros [p [Hp Hg]]. apply existsb_exists in Hg.
    destruct Hg as [g [Hg Heq]]. apply Nat.eqb_eq in Heq. subst g.
    exists p. tauto.
  - intros [p [Hp Hg]]. exists p. split; [exact Hp|].
    apply existsb_exists. exists (gpp_group p).
    split; [exact Hg | apply Nat.eqb_refl].
Qed.

(** X6.  A user has some page permission exactly when the account is
    active and the user is a superuser or one of the user's groups holds a
    page permission record, of any type and on any page.  An account that
    is not active has none, superuser or not. *)
Theorem user_has_any_page_permission_iff :
  forall env u,
    (user_has_any_page_permission env u = true
     <-> is_active u = true
         /\ (is_superuser u = true
             \/ exists p, In p (page_permissions env)
                          /\ In (gpp_group p) (groups u)))
    /\ (is_active u = false -> user_has_any_page_permission env u = false).
Proof.
  intros env u. split.
  - rewrite <- any_group_permission_iff. unfold user_has_any_page_permission.
    destruct (is_active u), (is_superuser u), (any_group_permission env u);
      simpl; intuition discriminate.
  - intro Hinactive. unfold user_has_any_page_permission.
    rewrite Hinactive. reflexivity.
Qed.

Lemma user_has_any_page_permission_iff_witness :
  user_has_any_page_permission Site.plain Site.dave = false.
Proof.
  apply (proj2 (user_has_any_page_permission_iff Site.plain Site.dave)).
  reflexivity.
Defined.

(** X7.  Whoever the resolver returns, for any page, permission type and
    flag, has some page permission. *)
Theorem resolved_users_have_page_permission :
  forall env page ptype include_superusers,
    Forall (fun u => user_has_any_page_permission env u = true)
           (users_with_page_permission env page ptype include_superusers).
Proof.
  intros env page ptype include_superusers. apply Forall_forall.
  intros u Hu. apply resolver_member in Hu.
  destruct Hu as [_ [Hactive Hq]].
  apply (proj1 (user_has_any_page_permission_iff env u)).
  split; [exact Hactive|].
  apply existsb_exists in Hq. destruct Hq as [row [Hrow Hq]].
  unfold q_filter in Hq.
  assert (Hcases : q_in_perm (perm_records env page ptype) row = true
                   \/ is_superuser u = true).
  { destruct include_superusers.
    - apply orb_true_iff in Hq. exact Hq.
    - left. exact Hq. }
  destruct Hcases as [Hrecord | Hsuper]; [right | left; exact Hsuper].
  destruct row as [p|]; [|discriminate].
  apply joined_rows_Some in Hrow. exists p. exact Hrow.
Qed.

(** ** The decorators *)

(** X8.  Two checks stacked on a view are one check of both tests: the
    view runs when both hold, and the call is that of [permission_denied]
    when one fails. *)
Theorem stacked_tests_are_a_conjunction :
  forall L env (test1 test2 : User -> bool) (view_func : ViewFunc L)
         request args s,
    user_passes_test env test1 (user_passes_test env test2 view_func)
                     request args s
    = user_passes_test env (fun user => test1 user && test2 user) view_func
                       request args s.
Proof.
  intros L env test1 test2 view_func request args s. unfold user_passes_test.
  destruct (test1 (request_user request)), (test2 (request_user request));
    reflexivity.
Qed.

(** X9.  [any_permission_required] looks at which permissions are listed,
    not at their order or number of occurrences: two lists with the same
    members give the same view. *)
Theorem any_permission_required_same_members :
  forall L env perms perms' (view_func : ViewFunc L) request args s,
    (forall perm, In perm perms <-> In perm perms') ->
    any_permission_required env perms view_func request args s
    = any_permission_required env perms' view_func request args s.
Proof.
  intros L env perms perms' view_func request args s Hsame.
  unfold any_permission_required, user_passes_test.
  rewrite !any_perm_test_existsb.
  assert (Heq : existsb (has_perm env (request_user request)) perms
                = existsb (has_perm env (request_user request)) perms').
  { apply eq_true_iff_eq. rewrite !existsb_exists.
    split; intros [perm [Hin Hperm]]; exists perm;
      (split; [apply Hsame; exact Hin | exact Hperm]). }
  rewrite Heq. reflexivity.
Qed.

Lemma any_permission_required_same_members_witness :
  any_permission_required Site.plain ["a"; "b"; "a"] (call_view Site.dashboard)
                          (mkRequest Site.carol false) ([], []) ("en", tt)
  = any_permission_required Site.plain ["b"; "a"] (call_view Site.dashboard)
                            (mkRequest Site.carol false) ([], []) ("en", tt).
Proof.
  apply (@any_permission_required_same_members
           unit Site.plain ["a"; "b"; "a"] ["b"; "a"] (call_view Site.dashboard)
           (mkRequest Site.carol false) ([], []) ("en", tt)).
  intro perm. simpl. tauto.
Defined.

(** X10.  With no permission listed [any_permission_required] turns every
    request away, and with one it is [permission_required] of that
    permission. *)
Theorem any_permission_required_none_and_one :
  forall L env (view_func : ViewFunc L) request args s,
    any_permission_required env [] view_func request args s
    = permission_denied env request s
    /\ forall perm,
        any_permission_required env [perm] view_func request args s
        = permission_required env perm view_func request args s.
Proof.
  intros L env view_func request args s. split.
  - reflexivity.
  - intro perm. unfold any_permission_required, permission_required,
      user_passes_test. simpl.
    destruct (has_perm env (request_user request) perm); reflexivity.
Qed.

(** X11.  A request that fails the test is answered without running the
    view and without touching the state: an AJAX request by the exception
    [PermissionDenied] and no message, any other request by a redirect to
    the home of the admin and one error message, translated in the active
    language. *)
Theorem denied_request_outcome :
  forall L env test (view_func : ViewFunc L) request args (s : Lang * L),
    test (request_user request) = false ->
    user_passes_test env test view_func request args s
    = if is_ajax request
      then (Raise PermissionDenied, s, [])
      else (Return (Redirect "wagtailadmin_home"), s,
            [EvMessageError
               (ugettext env (fst s)
                  "Sorry, you do not have permission to access this area.")]).
Proof.
  intros L env test view_func request args s Htest.
  unfold user_passes_test. rewrite Htest. unfold permission_denied.
  destruct (is_ajax request); reflexivity.
Qed.

Lemma denied_request_outcome_witness :
  user_passes_test Site.plain (user_has_any_page_permission Site.plain)
                   (call_view Site.dashboard)
                   (mkRequest Site.dave true) ([], []) ("en", tt)
  = (Raise PermissionDenied, ("en", tt), []).
Proof.
  apply (@denied_request_outcome
           unit Site.plain (user_has_any_page_permission Site.plain)
           (call_view Site.dashboard) (mkRequest Site.dave true) ([], [])
           ("en", tt)).
  reflexivity.
Defined.

(** ** send_mail *)

(** X12.  A call of [send_mail] hands exactly one message to the
    transport and leaves the state as it is.  The message has the subject,
    the body and the recipients of the call, the header of automatic
    messages and no other, and the HTML body as its one alternative when
    one is given and is not empty.  The call returns what the transport
    returns and raises what it raises. *)
Theorem send_mail_hands_one_message :
  forall L env subject message recipient_list from_email kwargs (s : Lang * L),
    exists m,
      send_mail env subject message recipient_list from_email kwargs s
      = (mail_send env m, s, [EvSend m])
      /\ mail_subject m = subject
      /\ mail_body m = message
      /\ mail_to m = recipient_list
      /\ mail_headers m = [("Auto-Submitted", "auto-generated")]
      /\ mail_alternatives m
         = match kw_html_message kwargs with
           | Some html => if str_truthy html then [(html, "text/html")] else []
           | None => []
           end
      /\ mail_connection m
         = match kw_connection kwargs with
           | Some c => GivenConnection c
           | None => GetConnection (kw_auth_user kwargs) (kw_auth_password kwargs)
                                   (kw_fail_silently kwargs)
           end.
Proof.
  intros L env subject message recipient_list from_email kwargs s.
  rewrite send_mail_run. eexists. split; [reflexivity|].
  simpl. repeat split.
  destruct (kw_html_message kwargs) as [html|]; simpl; [|reflexivity].
  destruct (str_truthy html); reflexivity.
Qed.

(** ** send_notification: what is recorded in every call *)

Lemma records_bind_ret : forall L A B (P : Event -> Prop) (a : A) (k : A -> M L B),
  records P (k a) -> records P (bind (ret a) k).
Proof.
  intros L A B P a k Hk s. unfold bind, ret. specialize (Hk s).
  destruct (k a s) as [[r s2] t2]. exact Hk.
Qed.

(** What one turn of the loop may record: renderings, a log entry, and a
    send to its recipient, with an HTML body only if HTML notifications
    are on. *)
Lemma records_turn : forall (P : Event -> Prop) env notification context recipient,
  (forall language template c, P (EvRender language template c)) ->
  (forall subject address, P (EvLog subject address)) ->
  (forall subject content html,
      (html <> None ->
       getattr_default (WAGTAILADMIN_NOTIFICATION_USE_HTML (settings env)) false
       = true) ->
      P (EvSend (build_mail (settings env) subject content [email recipient] None
                            (mkMailKwargs None None None None html)))) ->
  records P (notify_recipient env notification context recipient).
Proof.
  intros P env notification context recipient Hrender Hlog Hsend.
  assert (Hr : forall template c,
             records P (@render_to_string Locals env template c)).
  { intros template c. apply records_render_to_string. intro. apply Hrender. }
  assert (Hrest : forall html,
             (html <> None ->
              getattr_default (WAGTAILADMIN_NOTIFICATION_USE_HTML (settings env))
                              false = true) ->
             records P
               (subject <- read_local "email_subject" email_subject ;;
                content <- read_local "email_content" email_content ;;
                send_mail env subject content [email recipient] None
                          (mkMailKwargs None None None None html) ;;;
                modify_locals (fun l => set_sent_count (sent_count l + 1) l))).
  { intros html Hhtml.
    apply records_bind; [apply records_read_local|]. intro subject.
    apply records_bind; [apply records_read_local|]. intro content.
    apply records_bind; [|intro; apply records_modify_locals].
    apply records_send_mail. apply Hsend. exact Hhtml. }
  unfold notify_recipient. apply records_try_except.
  - apply records_bind.
    + apply records_override.
      apply records_bind; [apply Hr|]. intro subject.
      apply records_bind; [apply records_modify_locals|]. intros _.
      apply records_bind; [apply Hr|]. intro content.
      apply records_modify_locals.
    + intros _.
      destruct (getattr_default (WAGTAILADMIN_NOTIFICATION_USE_HTML (settings env))
                                false) eqn:Hhtml.
      * apply records_bind.
        -- apply records_bind; [apply Hr|]. intro html. apply records_ret.
        -- intro html_message. apply Hrest. intros _. reflexivity.
      * apply records_bind_ret. apply Hrest. intro Habsurd. contradiction.
  - intros _. apply records_bind; [apply records_read_local|]. intro subject.
    apply records_emit. apply Hlog.
Qed.

Lemma resolver_trace_records : forall (P : Event -> Prop) env revision notification,
  (forall page perm include_superusers,
      P (EvResolver page perm include_superusers)) ->
  Forall P (resolver_trace env revision notification).
Proof.
  intros P env revision notification HP. unfold resolver_trace.
  destruct (String.eqb notification "submitted"); repeat constructor. apply HP.
Qed.

(** The trace of a call whose revision is found: what the resolution of
    the candidates records, then what the loop over the filtered
    recipients records. *)
Lemma dispatch_trace_found :
  forall env language id notification excluded revision,
    lookup_revision env id = Some revision ->
    trace_of (dispatch env language id notification excluded)
    = resolver_trace env revision notification
      ++ trace_of
           (for_each (filtered_recipients env revision notification excluded)
              (notify_recipient env notification
                 (mkContext revision (settings env) None))
              (language, set_sent_count 0 no_locals)).
Proof.
  intros env language id notification excluded revision Hfind.
  rewrite (@dispatch_found env language id notification excluded revision Hfind).
  unfold filtered_recipients, email_recipients.
  destruct (candidates env revision notification) as [recipients|] eqn:Hcand;
    cbn [option_map].
  - destruct (filter (wants_email notification excluded) recipients)
      as [|first others] eqn:Hfilter.
    + unfold trace_of. simpl. rewrite app_nil_r. reflexivity.
    + destruct (for_each (first :: others) _ _) as [[r s1] t] eqn:Hloop.
      destruct r; reflexivity.
  - unfold candidates in Hcand. unfold resolver_trace.
    destruct (String.eqb notification "submitted"); [discriminate | reflexivity].
Qed.

(** Whatever holds of the calls of the resolver, of the renderings, of the
    log entries and of the sends of the turns holds of all that a call
    records. *)
Lemma dispatch_records : forall (P : Event -> Prop) env language id notification
                                excluded,
  (forall page perm include_superusers,
      P (EvResolver page perm include_superusers)) ->
  (forall active template c, P (EvRender active template c)) ->
  (forall subject address, P (EvLog subject address)) ->
  (forall u subject content html,
      (html <> None ->
       getattr_default (WAGTAILADMIN_NOTIFICATION_USE_HTML (settings env)) false
       = true) ->
      P (EvSend (build_mail (settings env) subject content [email u] None
                            (mkMailKwargs None None None None html)))) ->
  Forall P (trace_of (dispatch env language id notification excluded)).
Proof.
  intros P env language id notification excluded Hresolver Hrender Hlog Hsend.
  destruct (lookup_revision env id) as [revision|] eqn:Hfind.
  - rewrite (@dispatch_trace_found env language id notification excluded
               revision Hfind).
    apply Forall_app. split.
    + apply resolver_trace_records. exact Hresolver.
    + apply records_for_each with (Q := fun _ : User => True).
      * intros u _. apply records_turn; [exact Hrender | exact Hlog|].
        apply Hsend.
      * apply Forall_forall. intros; exact I.
  - rewrite dispatch_no_revision by exact Hfind. constructor.
Qed.

(** X13.  Every message a call of [send_notification] hands to the
    transport has one recipient, the header of automatic messages, a
    connection opened without credentials, and an HTML alternative at most
    when HTML notifications are on.  Its sender is the one the settings
    give (the call names none) when that is an address, and the default
    address when the settings give the empty string. *)
Theorem notifications_are_automatic_messages :
  forall env language id notification excluded,
    Forall (notification_message env)
           (trace_of (dispatch env language id notification excluded)).
Proof.
  intros env language id notification excluded.
  apply dispatch_records; try (intros; exact I).
  intros u subject content html Hhtml.
  unfold notification_message, build_mail, settings_sender.
  cbn [mail_to mail_from mail_headers mail_connection mail_alternatives
       kw_connection kw_auth_user kw_auth_password kw_fail_silently
       kw_html_message length].
  split; [reflexivity|]. split; [|split; [|split; [|split]]].
  - intro Hsender. apply constructor_keeps_sender. exact Hsender.
  - intros Hempty default_sender Hdefault. rewrite Hempty.
    unfold constructor_from_email. rewrite Hdefault. reflexivity.
  - reflexivity.
  - reflexivity.
  - intro Halternatives. apply Hhtml.
    destruct html as [h|]; [discriminate|].
    simpl in Halternatives. contradiction.
Qed.

(** X14.  The resolver is called once, for the permission 'publish' on
    the page of the revision and with the flag of the settings (true when
    it is not defined), in a call for a submitted notification whose
    revision is found; it is not called in any other call. *)
Theorem resolver_called_once_for_submitted :
  forall env language id notification excluded,
    filter is_resolver_call
           (trace_of (dispatch env language id notification excluded))
    = match lookup_revision env id with
      | Some revision =>
          if String.eqb notification "submitted" then
            [EvResolver (revision_page revision) "publish"
               (getattr_default
                  (WAGTAILADMIN_NOTIFICATION_INCLUDE_SUPERUSERS (settings env))
                  true)]
          else []
      | None => []
      end.
Proof.
  intros env language id notification excluded.
  destruct (lookup_revision env id) as [revision|] eqn:Hfind.
  - rewrite (@dispatch_trace_found env language id notification excluded
               revision Hfind), filter_app.
    assert (Hloop :
              filter is_resolver_call
                (trace_of
                   (for_each
                      (filtered_recipients env revision notification excluded)
                      (notify_recipient env notification
                         (mkContext revision (settings env) None))
                      (language, set_sent_count 0 no_locals))) = []).
    { apply filter_none. intros e He.
      assert (Hall : Forall (fun e => is_resolver_call e = false)
                            (trace_of
                               (for_each
                                  (filtered_recipients env revision notification
                                                       excluded)
                                  (notify_recipient env notification
                                     (mkContext revision (settings env) None))
                                  (language, set_sent_count 0 no_locals)))).
      { apply records_for_each with (Q := fun _ : User => True).
        - intros u _. apply records_turn; intros; reflexivity.
        - apply Forall_forall. intros; exact I. }
      rewrite Forall_forall in Hall. apply Hall. exact He. }
    rewrite Hloop, app_nil_r. unfold resolver_trace.
    destruct (String.eqb notification "submitted"); reflexivity.
  - rewrite dispatch_no_revision by exact Hfind. reflexivity.
Qed.

(** X15.  Whatever happens in a call of [send_notification], a return or
    an exception, the language that was active before the call is active
    after it. *)
Theorem language_is_restored_after_dispatch :
  forall env language id notification excluded,
    language_after (dispatch env language id notification excluded) = language.
Proof.
  intros env language id notification excluded. unfold dispatch.
  apply (send_notification_keeps_language env id notification excluded
           (language, no_locals)).
Qed.

Lemma str_truthy_iff : forall s, str_truthy s = true <-> s <> "".
Proof.
  intro s. destruct s; simpl; split; congruence.
Qed.

(** X16.  In a call whose revision is found, the filtered recipients are
    exactly the candidates who have an e-mail address, are not the
    excluded user and have the preference of this notification on, and
    every message handed to the transport is addressed to one of these
    filtered recipients and to nobody else.  So the excluded user, a user
    without an address and a user who turned the notification off are not
    written to. *)
Theorem excluded_and_unwilling_users_get_nothing :
  forall env language id notification excluded revision,
    lookup_revision env id = Some revision ->
    (forall u,
        In u (filtered_recipients env revision notification excluded)
        <-> exists cs,
            candidates env revision notification = Some cs
            /\ In u cs
            /\ email u <> ""
            /\ pk u <> excluded
            /\ getattr_profile (wagtail_userprofile u)
                               (notification ++ "_notifications")%string
               = Some true)
    /\ (forall m,
           In (EvSend m) (trace_of (dispatch env language id notification excluded)) ->
           exists u,
             In u (filtered_recipients env revision notification excluded)
             /\ mail_to m = [email u]).
Proof.
  intros env language id notification excluded revision Hfind. split.
  - intro u. unfold filtered_recipients, email_recipients.
    destruct (candidates env revision notification) as [cs|];
      cbn [option_map].
    + rewrite filter_In. unfold wants_email.
      rewrite !andb_true_iff, negb_true_iff, Nat.eqb_neq, str_truthy_iff.
      split.
      * intros [Hin [[Hmail Hpk] Hpref]]. exists cs.
        repeat split; try assumption.
        destruct (getattr_profile _ _) as [[|]|]; try discriminate. reflexivity.
      * intros [cs' [Hcs [Hin [Hmail [Hpk Hpref]]]]].
        injection Hcs as Hcs. subst cs'. rewrite Hpref. tauto.
    + split; [intros [] | intros [cs [Habsurd _]]; discriminate].
  - intros m Hm.
    pose proof (@dispatch_addressed env language id notification excluded
                  revision Hfind) as Hall.
    rewrite Forall_forall in Hall. exact (Hall (EvSend m) Hm).
Qed.

Lemma excluded_and_unwilling_users_get_nothing_witness :
  (forall u,
      In u (filtered_recipients Site.plain Site.r3 "approved" 2)
      <-> exists cs,
          candidates Site.plain Site.r3 "approved" = Some cs
          /\ In u cs
          /\ email u <> ""
          /\ pk u <> 2
          /\ getattr_profile (wagtail_userprofile u) "approved_notifications"
             = Some true)
  /\ (forall m,
         In (EvSend m) (trace_of (dispatch Site.plain "en" 3 "approved" 2)) ->
         exists u,
           In u (filtered_recipients Site.plain Site.r3 "approved" 2)
           /\ mail_to m = [email u]).
Proof.
  apply (@excluded_and_unwilling_users_get_nothing
           Site.plain "en" 3 "approved" 2 Site.r3).
  reflexivity.
Defined.

(** ** send_notification: its result *)

Lemma count_is_all : forall A (f : A -> bool) xs,
  Nat.eqb (length (filter f xs)) (length xs) = forallb f xs.
Proof.
  intros A f xs. apply eq_true_iff_eq.
  rewrite Nat.eqb_eq. apply filter_all_length.
Qed.

(** X17.  When a call of [send_notification] for a recognized
    notification returns, what it returns is whether the turn of every
    filtered recipient succeeded: true when all did, and also when there
    was nobody to write to, false when one failed. *)
Theorem dispatch_returns_whether_all_succeeded :
  forall env language id notification excluded revision b,
    lookup_revision env id = Some revision ->
    recognized notification = true ->
    result_of (dispatch env language id notification excluded) = Return b ->
    b = forallb (attempt_succeeds env language notification
                   (mkContext revision (settings env) None))
                (filtered_recipients env revision notification excluded).
Proof.
  intros env language id notification excluded revision b Hfind Hkind.
  rewrite (@dispatch_found env language id notification excluded revision Hfind).
  unfold filtered_recipients, email_recipients.
  destruct (candidates env revision notification) as [recipients|] eqn:Hcand;
    cbn [option_map].
  - destruct (filter (wants_email notification excluded) recipients)
      as [|first others] eqn:Hfilter.
    + unfold result_of. cbn [fst forallb]. intro H. injection H as H.
      symmetry. exact H.
    + destruct (loop_outcome env language notification
                  (mkContext revision (settings env) None) (first :: others)
                  (set_sent_count 0 no_locals))
        as [[l' [t [Hrun Hcount]]] | [l' [t [Hrun Hfail]]]];
        rewrite Hrun; unfold result_of; cbn [fst snd].
      * rewrite Hcount. cbn [sent_count set_sent_count no_locals Nat.add].
        rewrite count_is_all. intro H. injection H as H. symmetry. exact H.
      * discriminate.
  - apply recognized_candidates in Hcand. congruence.
Qed.

Lemma dispatch_returns_whether_all_succeeded_witness :
  false = forallb (attempt_succeeds Demo.picky_transport "en" "submitted"
                     (mkContext Site.r1 Site.no_settings None))
                  (filtered_recipients Demo.picky_transport Site.r1 "submitted" 1).
Proof.
  apply (@dispatch_returns_whether_all_succeeded
           Demo.picky_transport "en" 1 "submitted" 1 Site.r1 false);
    reflexivity.
Defined.

(** X18.  Once the revision is found and the list of e-mail recipients
    is built (the notification is recognized and the candidates are
    users), the call either returns or is left by [UnboundLocalError],
    and the first recipient of the list decides which: the call raises,
    with nothing sent, when there is one and its subject does not render,
    and returns in every other case, whatever else fails in the loop. *)
Theorem dispatch_raises_iff_first_subject_fails :
  forall env language id notification excluded revision recipients,
    lookup_revision env id = Some revision ->
    email_recipients env revision notification excluded = Some recipients ->
    match recipients with
    | first :: _ =>
        if is_return (render env (get_preferred_language (wagtail_userprofile first))
                             (template_subject notification)
                             (mkContext revision (settings env) (Some first)))
        then exists b,
            result_of (dispatch env language id notification excluded) = Return b
        else result_of (dispatch env language id notification excluded)
             = Raise (UnboundLocalError "email_subject")
             /\ filter is_send
                       (trace_of (dispatch env language id notification excluded))
                = []
    | [] =>
        result_of (dispatch env language id notification excluded) = Return true
    end.
Proof.
  intros env language id notification excluded revision recipients Hfind Hbuilt.
  assert (Hfiltered :
            filtered_recipients env revision notification excluded = recipients).
  { unfold filtered_recipients. rewrite Hbuilt. reflexivity. }
  destruct recipients as [|first others].
  - rewrite (@dispatch_found env language id notification excluded revision Hfind).
    unfold email_recipients in Hbuilt.
    destruct (candidates env revision notification) as [cs|];
      cbn [option_map] in Hbuilt; [|discriminate].
    injection Hbuilt as Hbuilt. rewrite Hbuilt. reflexivity.
  - destruct (is_return _) eqn:Hrender.
    + apply dispatch_returns_once_subject_renders with (revision := revision);
        [exact Hfind|].
      intros first' others' Hsame. rewrite Hfiltered in Hsame.
      injection Hsame as Hfirst _. subst first'. exact Hrender.
    + apply first_subject_failure_escapes
        with (revision := revision) (first := first) (others := others);
        assumption.
Qed.

(** The transport refuses Carol: the failure is logged and the call
    returns false. *)
Lemma dispatch_raises_iff_first_subject_fails_witness :
  exists b,
    result_of (dispatch Demo.picky_transport "en" 1 "submitted" 1) = Return b.
Proof.
  apply (@dispatch_raises_iff_first_subject_fails
           Demo.picky_transport "en" 1 "submitted" 1 Site.r1
           [Site.bob; Site.carol]);
    reflexivity.
Defined.

(** ** send_notification: who gets a message, and how many *)

Lemma sent_to_app : forall t1 t2, sent_to (t1 ++ t2) = sent_to t1 ++ sent_to t2.
Proof. intros. unfold sent_to. apply flat_map_app. Qed.

Lemma resolver_trace_sent_to : forall env revision notification,
  sent_to (resolver_trace env revision notification) = [].
Proof.
  intros. unfold resolver_trace.
  destruct (String.eqb notification "submitted"); reflexivity.
Qed.

(** A turn that succeeds sends one message, to its recipient. *)
Lemma turn_succeeds_sends : forall env language notification context recipient l,
  attempt_succeeds env language notification context recipient = true ->
  sent_to (trace_of (notify_recipient env notification context recipient
                                      (language, l)))
  = [email recipient].
Proof.
  intros env language notification context recipient l Hok.
  run_turn.
  destruct (render env _ _ _) as [subject|]; [|discriminate]. simpl in *.
  destruct (render env _ _ _) as [content|]; [|discriminate]. simpl in *.
  destruct (getattr_default _ false); simpl in *.
  - destruct (render env language _ _) as [html|]; [|discriminate]. simpl in *.
    destruct (mail_send env _); [|discriminate]. reflexivity.
  - destruct (mail_send env _); [|discriminate]. reflexivity.
Qed.

Lemma loop_all_succeed_sends : forall env language notification context us l,
  forallb (attempt_succeeds env language notification context) us = true ->
  sent_to (trace_of (for_each us (notify_recipient env notification context)
                              (language, l)))
  = map email us.
Proof.
  intros env language notification context us.
  induction us as [|u rest IH]; intros l Hall; simpl.
  - reflexivity.
  - simpl in Hall. apply andb_true_iff in Hall. destruct Hall as [Hu Hrest].
    unfold bind.
    pose proof (turn_succeeds_sends env language notification context u l Hu)
      as Hsends.
    destruct (turn_succeeds env language notification context u l Hu)
      as [l1 [t1 [Hrun _]]].
    rewrite Hrun in *. unfold trace_of in *. cbn [snd] in *.
    specialize (IH l1 Hrest).
    destruct (for_each rest _ (language, l1)) as [[r2 s2] t2]. cbn [snd] in *.
    rewrite sent_to_app, Hsends, IH. reflexivity.
Qed.

(** X19.  When a call of [send_notification] returns true, exactly one
    message was handed to the transport for each filtered recipient, in
    the order of the list, each to the address of its recipient. *)
Theorem true_means_one_message_each :
  forall env language id notification excluded revision,
    lookup_revision env id = Some revision ->
    result_of (dispatch env language id notification excluded) = Return true ->
    sent_to (trace_of (dispatch env language id notification excluded))
    = map email (filtered_recipients env revision notification excluded).
Proof.
  intros env language id notification excluded revision Hfind Htrue.
  destruct (recognized notification) eqn:Hkind.
  - apply (@dispatch_true_iff_all_succeed env language id notification excluded
             revision Hfind Hkind) in Htrue.
    rewrite (@dispatch_trace_found env language id notification excluded
               revision Hfind).
    rewrite sent_to_app, resolver_trace_sent_to. simpl.
    apply loop_all_succeed_sends. exact Htrue.
  - rewrite (@dispatch_found env language id notification excluded revision Hfind)
      in Htrue.
    apply (recognized_candidates env revision) in Hkind. rewrite Hkind in Htrue.
    discriminate.
Qed.

Lemma true_means_one_message_each_witness :
  sent_to (trace_of (dispatch Site.plain "en" 1 "submitted" 1))
  = map email (filtered_recipients Site.plain Site.r1 "submitted" 1).
Proof.
  apply (@true_means_one_message_each Site.plain "en" 1 "submitted" 1 Site.r1);
    reflexivity.
Defined.

(** What a turn sends: one message to its recipient when it gets as far
    as the call of [send_mail], nothing otherwise. *)
Lemma turn_sends : forall env language notification context recipient l,
  sent_to (trace_of (notify_recipient env notification context recipient
                                      (language, l)))
  = if reaches_send env language notification context recipient
    then [email recipient] else [].
Proof.
  intros env language notification context recipient l.
  unfold reaches_send. run_turn.
  destruct (render env _ _ _) as [subject|]; simpl.
  - destruct (render env _ _ _) as [content|]; simpl.
    + destruct (getattr_default _ false); simpl.
      * destruct (render env language _ _) as [html|]; simpl.
        -- destruct (mail_send env _); reflexivity.
        -- reflexivity.
      * destruct (mail_send env _); reflexivity.
    + reflexivity.
  - destruct (email_subject l); reflexivity.
Qed.

Lemma loop_once_bound_sends : forall env language notification context us l,
  email_subject l <> None ->
  sent_to (trace_of (for_each us (notify_recipient env notification context)
                              (language, l)))
  = map email (filter (reaches_send env language notification context) us).
Proof.
  intros env language notification context us.
  induction us as [|u rest IH]; intros l Hbound; simpl.
  - reflexivity.
  - unfold bind.
    pose proof (turn_sends env language notification context u l) as Hsends.
    assert (Hturn : exists l1 t1,
               notify_recipient env notification context u (language, l)
               = (Return tt, (language, l1), t1)
               /\ email_subject l1 <> None).
    { destruct (attempt_succeeds env language notification context u) eqn:Hu.
      - destruct (turn_succeeds env language notification context u l Hu)
          as [l1 [t1 [Hrun [_ Hbound1]]]].
        exists l1, t1. split; assumption.
      - destruct (@turn_fails_logged env language notification context u l Hu
                    (or_introl Hbound))
          as [l1 [t1 [subject [Hrun [_ Hbound1]]]]].
        eexists. eexists. split; [exact Hrun | congruence]. }
    destruct Hturn as [l1 [t1 [Hrun Hbound1]]].
    rewrite Hrun in *. unfold trace_of in *. cbn [snd] in *.
    specialize (IH l1 Hbound1).
    destruct (for_each rest _ (language, l1)) as [[r2 s2] t2]. cbn [snd] in *.
    rewrite sent_to_app, Hsends, IH.
    destruct (reaches_send env language notification context u); reflexivity.
Qed.

Lemma no_send_no_address : forall t, filter is_send t = [] -> sent_to t = [].
Proof.
  intro t. induction t as [|e rest IH]; simpl; [reflexivity|].
  destruct e; simpl; try exact IH. discriminate.
Qed.

(** X20.  In a call whose revision is found and which returns, the
    messages handed to the transport are, in the order of the filtered
    list, one for each filtered recipient whose subject, text and, when
    HTML notifications are on, HTML body rendered, and no other; in a call
    that raises no message is handed to the transport.  So no recipient is
    written to twice and nothing is sent again after a failure. *)
Theorem one_message_per_rendered_recipient :
  forall env language id notification excluded revision,
    lookup_revision env id = Some revision ->
    sent_to (trace_of (dispatch env language id notification excluded))
    = match result_of (dispatch env language id notification excluded) with
      | Return _ =>
          map email
              (filter (reaches_send env language notification
                         (mkContext revision (settings env) None))
                      (filtered_recipients env revision notification excluded))
      | Raise _ => []
      end.
Proof.
  intros env language id notification excluded revision Hfind.
  set (context := mkContext revision (settings env) None).
  destruct (filtered_recipients env revision notification excluded)
    as [|first others] eqn:Hfiltered.
  - destruct (@dispatch_returns_once_subject_renders env language id notification
                excluded revision Hfind) as [b Hreturn].
    { intros first others Habsurd. congruence. }
    rewrite Hreturn.
    rewrite (@dispatch_trace_found env language id notification excluded
               revision Hfind).
    rewrite Hfiltered, sent_to_app, resolver_trace_sent_to. reflexivity.
  - destruct (is_return (render env
                           (get_preferred_language (wagtail_userprofile first))
                           (template_subject notification)
                           (mkContext revision (settings env) (Some first))))
      eqn:Hrender.
    + destruct (@dispatch_returns_once_subject_renders env language id
                  notification excluded revision Hfind) as [b Hreturn].
      { intros first' others' Hsame. rewrite Hfiltered in Hsame.
        injection Hsame as Hfirst _. subst first'. exact Hrender. }
      rewrite Hreturn.
      rewrite (@dispatch_trace_found env language id notification excluded
                 revision Hfind).
      rewrite Hfiltered, sent_to_app, resolver_trace_sent_to.
      cbn [app for_each filter]. unfold bind. fold context.
      pose proof (turn_sends env language notification context first
                             (set_sent_count 0 no_locals)) as Hsends.
      assert (Hturn : exists l1 t1,
                 notify_recipient env notification context first
                                  (language, set_sent_count 0 no_locals)
                 = (Return tt, (language, l1), t1)
                 /\ email_subject l1 <> None).
      { destruct (attempt_succeeds env language notification context first)
          eqn:Hok.
        - destruct (turn_succeeds env language notification context first
                      (set_sent_count 0 no_locals) Hok)
            as [l1 [t1 [Hrun [_ Hbound1]]]].
          exists l1, t1. split; assumption.
        - destruct (@turn_fails_logged env language notification context first
                      (set_sent_count 0 no_locals) Hok (or_intror Hrender))
            as [l1 [t1 [subject [Hrun [_ Hbound1]]]]].
          eexists. eexists. split; [exact Hrun | congruence]. }
      destruct Hturn as [l1 [t1 [Hrun Hbound1]]].
      rewrite Hrun in *. unfold trace_of in *. cbn [snd] in *.
      pose proof (@loop_once_bound_sends env language notification context others
                    l1 Hbound1) as Hrest.
      destruct (for_each others _ (language, l1)) as [[r2 s2] t2].
      unfold trace_of in *. cbn [snd] in *.
      rewrite sent_to_app, Hsends, Hrest.
      destruct (reaches_send env language notification context first);
        reflexivity.
    + destruct (@first_subject_failure_escapes env language id notification
                  excluded revision first others Hfind Hfiltered Hrender)
        as [Hraise Hnone].
      rewrite Hraise. apply no_send_no_address. exact Hnone.
Qed.

Lemma one_message_per_rendered_recipient_witness :
  sent_to (trace_of (dispatch Demo.picky_transport "en" 1 "submitted" 1))
  = match result_of (dispatch Demo.picky_transport "en" 1 "submitted" 1) with
    | Return _ =>
        map email
            (filter (reaches_send Demo.picky_transport "en" "submitted"
                       (mkContext Site.r1 Site.no_settings None))
                    (filtered_recipients Demo.picky_transport Site.r1
                                         "submitted" 1))
    | Raise _ => []
    end.
Proof.
  apply (@one_message_per_rendered_recipient
           Demo.picky_transport "en" 1 "submitted" 1 Site.r1).
  reflexivity.
Defined.

(** ** send_notification: the languages of the renderings *)

Lemma turn_rendered_for : forall env language notification context us recipient l,
  In recipient us ->
  Forall (rendered_for language notification context us)
         (trace_of (notify_recipient env notification context recipient
                                     (language, l))).
Proof.
  intros env language notification context us recipient l Hin.
  assert (Hsubject : forall c,
             c = set_user context recipient ->
             rendered_for language notification context us
               (EvRender (get_preferred_language (wagtail_userprofile recipient))
                         (template_subject notification) c)).
  { intros c Hc. exists recipient. split; [exact Hin|]. split; [exact Hc|].
    left. split; [left; reflexivity | reflexivity]. }
  assert (Htext : forall c,
             c = set_user context recipient ->
             rendered_for language notification context us
               (EvRender (get_preferred_language (wagtail_userprofile recipient))
                         (template_text notification) c)).
  { intros c Hc. exists recipient. split; [exact Hin|]. split; [exact Hc|].
    left. split; [right; reflexivity | reflexivity]. }
  assert (Hhtml : forall c,
             c = set_user context recipient ->
             rendered_for language notification context us
               (EvRender language (template_html notification) c)).
  { intros c Hc. exists recipient. split; [exact Hin|]. split; [exact Hc|].
    right. split; reflexivity. }
  specialize (Hsubject _ eq_refl). specialize (Htext _ eq_refl).
  specialize (Hhtml _ eq_refl).
  assert (Hsend : forall m, rendered_for language notification context us (EvSend m))
    by (intro; exact I).
  assert (Hlog : forall a b,
             rendered_for language notification context us (EvLog a b))
    by (intros; exact I).
  set (P := rendered_for language notification context us) in *.
  clearbody P. run_turn.
  destruct (render env _ _ _) as [subject|]; simpl.
  - destruct (render env _ _ _) as [content|]; simpl.
    + destruct (getattr_default _ false); simpl.
      * destruct (render env language _ _) as [html|]; simpl.
        -- destruct (mail_send env _); simpl; repeat constructor; auto.
        -- repeat constructor; auto.
      * destruct (mail_send env _); simpl; repeat constructor; auto.
    + repeat constructor; auto.
  - destruct (email_subject l); simpl; repeat constructor; auto.
Qed.

Lemma loop_rendered_for : forall env language notification context us0 us l,
  incl us us0 ->
  Forall (rendered_for language notification context us0)
         (trace_of (for_each us (notify_recipient env notification context)
                             (language, l))).
Proof.
  intros env language notification context us0 us.
  induction us as [|u rest IH]; intros l Hincl; simpl.
  - constructor.
  - unfold bind.
    pose proof (@turn_rendered_for env language notification context us0 u l
                  (Hincl u (or_introl eq_refl))) as Hturn.
    pose proof (keeps_notify_recipient env notification context u (language, l))
      as Hkeeps.
    destruct (notify_recipient env notification context u (language, l))
      as [[r [language1 l1]] t1].
    unfold trace_of, language_after in *. cbn [fst snd] in *. subst language1.
    destruct r as [a|e]; [|exact Hturn].
    assert (Hrest : incl rest us0).
    { intros x Hx. apply Hincl. right. exact Hx. }
    specialize (IH l1 Hrest).
    destruct (for_each rest _ (language, l1)) as [[r2 s2] t2]. cbn [snd] in *.
    apply Forall_app. split; assumption.
Qed.

(** X21.  In a call whose revision is found, every rendering is that of
    one of the three templates of the notification for one filtered
    recipient, whom the context names as its user.  The subject and the
    text are rendered while the preferred language of that recipient is
    active; the HTML body is rendered while the language of the caller
    is. *)
Theorem renderings_and_their_languages :
  forall env language id notification excluded revision,
    lookup_revision env id = Some revision ->
    Forall (rendered_for language notification
              (mkContext revision (settings env) None)
              (filtered_recipients env revision notification excluded))
           (trace_of (dispatch env language id notification excluded)).
Proof.
  intros env language id notification excluded revision Hfind.
  rewrite (@dispatch_trace_found env language id notification excluded
             revision Hfind).
  apply Forall_app. split.
  - apply resolver_trace_records. intros; exact I.
  - apply loop_rendered_for. intros u Hu. exact Hu.
Qed.

Lemma renderings_and_their_languages_witness :
  Forall (rendered_for "en" "approved"
            (mkContext Site.r3 Site.html_settings None)
            (filtered_recipients Site.with_html Site.r3 "approved" 3))
         (trace_of (dispatch Site.with_html "en" 3 "approved" 3)).
Proof.
  apply (@renderings_and_their_languages
           Site.with_html "en" 3 "approved" 3 Site.r3).
  reflexivity.
Defined.

(** ** send_notification: the log *)

Lemma logged_addresses_app : forall t1 t2,
  logged_addresses (t1 ++ t2) = logged_addresses t1 ++ logged_addresses t2.
Proof. intros. unfold logged_addresses. apply flat_map_app. Qed.

Lemma turn_succeeds_logs_nothing :
  forall env language notification context recipient l,
    attempt_succeeds env language notification context recipient = true ->
    logged_addresses
      (trace_of (notify_recipient env notification context recipient (language, l)))
    = [].
Proof.
  intros env language notification context recipient l Hok.
  run_turn.
  destruct (render env _ _ _) as [subject|]; [|discriminate]. simpl in *.
  destruct (render env _ _ _) as [content|]; [|discriminate]. simpl in *.
  destruct (getattr_default _ false); simpl in *.
  - destruct (render env language _ _) as [html|]; [|discriminate]. simpl in *.
    destruct (mail_send env _); [|discriminate]. reflexivity.
  - destruct (mail_send env _); [|discriminate]. reflexivity.
Qed.

Lemma turn_fails_logs_recipient :
  forall env language notification context recipient l,
    attempt_succeeds env language notification context recipient = false ->
    email_subject l <> None
    \/ is_return (render env (get_preferred_language (wagtail_userprofile recipient))
                         (template_subject notification)
                         (set_user context recipient)) = true ->
    logged_addresses
      (trace_of (notify_recipient env notification context recipient (language, l)))
    = [email recipient].
Proof.
  intros env language notification context recipient l Hfail Hbound.
  run_turn.
  destruct (render env _ _ _) as [subject|e]; simpl in *.
  - destruct (render env _ _ _) as [content|e]; simpl in *; [|reflexivity].
    destruct (getattr_default _ false); simpl in *.
    + destruct (render env language _ _) as [html|e]; simpl in *; [|reflexivity].
      destruct (mail_send env _); [discriminate | reflexivity].
    + destruct (mail_send env _); [discriminate | reflexivity].
  - destruct Hbound as [Hbound | Hbound]; [|discriminate].
    destruct (email_subject l); [reflexivity | contradiction].
Qed.

Lemma loop_once_bound_logs : forall env language notification context us l,
  email_subject l <> None ->
  logged_addresses
    (trace_of (for_each us (notify_recipient env notification context)
                        (language, l)))
  = map email
        (filter (fun u => negb (attempt_succeeds env language notification context u))
                us).
Proof.
  intros env language notification context us.
  induction us as [|u rest IH]; intros l Hbound; simpl.
  - reflexivity.
  - unfold bind.
    destruct (attempt_succeeds env language notification context u) eqn:Hu.
    + pose proof (turn_succeeds_logs_nothing env language notification context
                    u l Hu) as Hlogs.
      destruct (turn_succeeds env language notification context u l Hu)
        as [l1 [t1 [Hrun [_ Hbound1]]]].
      rewrite Hrun in *. unfold trace_of in *. cbn [snd negb] in *.
      specialize (IH l1 Hbound1).
      destruct (for_each rest _ (language, l1)) as [[r2 s2] t2]. cbn [snd] in *.
      rewrite logged_addresses_app, Hlogs, IH. reflexivity.
    + pose proof (@turn_fails_logs_recipient env language notification context
                    u l Hu (or_introl Hbound)) as Hlogs.
      destruct (@turn_fails_logged env language notification context u l Hu
                  (or_introl Hbound))
        as [l1 [t1 [subject [Hrun [_ Hbound1]]]]].
      rewrite Hrun in *. unfold trace_of in *. cbn [snd negb] in *.
      assert (Hbound1' : email_subject l1 <> None) by congruence.
      specialize (IH l1 Hbound1').
      destruct (for_each rest _ (language, l1)) as [[r2 s2] t2]. cbn [snd] in *.
      rewrite logged_addresses_app, Hlogs, IH. reflexivity.
Qed.

Lemma resolver_trace_logs_nothing : forall env revision notification,
  logged_addresses (resolver_trace env revision notification) = [].
Proof.
  intros. unfold resolver_trace.
  destruct (String.eqb notification "submitted"); reflexivity.
Qed.

(** X22.  When a call of [send_notification] returns, the log has one
    entry for each filtered recipient whose turn failed, in the order of
    the list, and each entry names the address of that recipient. *)
Theorem failures_are_logged_with_their_recipient :
  forall env language id notification excluded revision b,
    lookup_revision env id = Some revision ->
    result_of (dispatch env language id notification excluded) = Return b ->
    logged_addresses (trace_of (dispatch env language id notification excluded))
    = map email
          (filter (fun u => negb (attempt_succeeds env language notification
                                    (mkContext revision (settings env) None) u))
                  (filtered_recipients env revision notification excluded)).
Proof.
  intros env language id notification excluded revision b Hfind Hreturn.
  rewrite (@dispatch_trace_found env language id notification excluded
             revision Hfind).
  rewrite logged_addresses_app, resolver_trace_logs_nothing. simpl.
  set (context := mkContext revision (settings env) None).
  destruct (filtered_recipients env revision notification excluded)
    as [|first others] eqn:Hfiltered; [reflexivity|].
  destruct (is_return (render env
                         (get_preferred_language (wagtail_userprofile first))
                         (template_subject notification)
                         (mkContext revision (settings env) (Some first))))
    eqn:Hrender.
  - cbn [for_each filter]. unfold bind.
    destruct (attempt_succeeds env language notification context first) eqn:Hok.
    + pose proof (turn_succeeds_logs_nothing env language notification context
                    first (set_sent_count 0 no_locals) Hok) as Hlogs.
      destruct (turn_succeeds env language notification context first
                  (set_sent_count 0 no_locals) Hok)
        as [l1 [t1 [Hrun [_ Hbound1]]]].
      rewrite Hrun in *. unfold trace_of in *. cbn [snd negb] in *.
      pose proof (@loop_once_bound_logs env language notification context others
                    l1 Hbound1) as Hrest.
      destruct (for_each others _ (language, l1)) as [[r2 s2] t2].
      unfold trace_of in *. cbn [snd] in *.
      rewrite logged_addresses_app, Hlogs, Hrest. reflexivity.
    + pose proof (@turn_fails_logs_recipient env language notification context
                    first (set_sent_count 0 no_locals) Hok (or_intror Hrender))
        as Hlogs.
      destruct (@turn_fails_logged env language notification context first
                  (set_sent_count 0 no_locals) Hok (or_intror Hrender))
        as [l1 [t1 [subject [Hrun [_ Hbound1]]]]].
      rewrite Hrun in *. unfold trace_of in *. cbn [snd negb] in *.
      assert (Hbound1' : email_subject l1 <> None) by congruence.
      pose proof (@loop_once_bound_logs env language notification context others
                    l1 Hbound1') as Hrest.
      destruct (for_each others _ (language, l1)) as [[r2 s2] t2].
      unfold trace_of in *. cbn [snd] in *.
      rewrite logged_addresses_app, Hlogs, Hrest. reflexivity.
  - destruct (@first_subject_failure_escapes env language id notification
                excluded revision first others Hfind Hfiltered Hrender)
      as [Hraise _].
    congruence.
Qed.

Lemma failures_are_logged_with_their_recipient_witness :
  logged_addresses (trace_of (dispatch Demo.picky_transport "en" 1 "submitted" 1))
  = map email
        (filter (fun u => negb (attempt_succeeds Demo.picky_transport "en"
                                  "submitted"
                                  (mkContext Site.r1 Site.no_settings None) u))
                (filtered_recipients Demo.picky_transport Site.r1 "submitted" 1)).
Proof.
  apply (@failures_are_logged_with_their_recipient
           Demo.picky_transport "en" 1 "submitted" 1 Site.r1 false);
    reflexivity.
Defined.

(** The transport refuses Carol: Bob gets his message, the failure for
    Carol is logged with her address, and the call returns false. *)
Example refused_address :
  result_of (dispatch Demo.picky_transport "en" 1 "submitted" 1) = Return false
  /\ logged_addresses (trace_of (dispatch Demo.picky_transport "en" 1 "submitted" 1))
     = ["carol@example.com"]
  /\ sent_to (trace_of (dispatch Demo.picky_transport "en" 1 "submitted" 1))
     = ["bob@example.com"; "carol@example.com"].
Proof. repeat split. Qed.

(** ** get_site_for_user *)

(** X23.  For a user whose explorable root page belongs to a site, the
    name returned is the name of the site when it has one that is not
    empty, and the host name of the site otherwise, when that is not
    empty; in both cases the setting is not read, so that the call
    succeeds even when [WAGTAIL_SITE_NAME] is not defined. *)
Theorem site_name_comes_from_the_site :
  forall get_explorable_root_page get_site WAGTAIL_SITE_NAME user page st,
    get_explorable_root_page user = Some page ->
    get_site page = Some st ->
    (forall name,
        site_name st = Some name -> name <> "" ->
        get_site_for_user get_explorable_root_page get_site WAGTAIL_SITE_NAME user
        = SiteReturn (mkSiteInfo (Some page) (Some st) name))
    /\ (opt_truthy (site_name st) = false -> hostname st <> "" ->
        get_site_for_user get_explorable_root_page get_site WAGTAIL_SITE_NAME user
        = SiteReturn (mkSiteInfo (Some page) (Some st) (hostname st))).
Proof.
  intros root site_of setting user page st Hroot Hsite. split.
  - intros name Hname Hnonempty. apply str_truthy_iff in Hnonempty.
    unfold get_site_for_user. rewrite Hroot, Hsite, Hname. simpl.
    rewrite Hnonempty. rewrite Hnonempty. reflexivity.
  - intros Hnoname Hhost. apply str_truthy_iff in Hhost.
    unfold get_site_for_user. rewrite Hroot, Hsite, Hnoname, Hhost.
    reflexivity.
Qed.

Lemma site_name_comes_from_the_site_witness :
  get_site_for_user Demo.explorable_root Demo.site_of None Site.carol
  = SiteReturn (mkSiteInfo (Some (mkPage 1 [])) (Some Demo.main_site) "Newsroom")
  /\ get_site_for_user Demo.explorable_root Demo.site_of None Site.bob
     = SiteReturn (mkSiteInfo (Some Site.news_page) (Some Demo.unnamed_site)
                              "intranet.example.com").
Proof.
  split.
  - apply (proj1 (@site_name_comes_from_the_site
                    Demo.explorable_root Demo.site_of None Site.carol
                    (mkPage 1 []) Demo.main_site eq_refl eq_refl)
                 "Newsroom" eq_refl).
    discriminate.
  - apply (proj2 (@site_name_comes_from_the_site
                    Demo.explorable_root Demo.site_of None Site.bob
                    Site.news_page Demo.unnamed_site eq_refl eq_refl)).
    + reflexivity.
    + discriminate.
Defined.

(** X24.  For a user with no explorable root page, and for one whose root
    page belongs to no site, no site is returned and the name is the
    setting [WAGTAIL_SITE_NAME]; the call fails with [AttributeError] when
    that setting is not defined. *)
Theorem site_name_falls_back_to_the_setting :
  forall get_explorable_root_page get_site WAGTAIL_SITE_NAME user,
    match get_explorable_root_page user with
    | Some page => get_site page = None
    | None => True
    end ->
    get_site_for_user get_explorable_root_page get_site WAGTAIL_SITE_NAME user
    = match WAGTAIL_SITE_NAME with
      | Some default_name =>
          SiteReturn (mkSiteInfo (get_explorable_root_page user) None default_name)
      | None => SiteAttributeError "WAGTAIL_SITE_NAME"
      end.
Proof.
  intros root site_of setting user Hnosite. unfold get_site_for_user.
  destruct (root user) as [page|]; [rewrite Hnosite|]; reflexivity.
Qed.

Lemma site_name_falls_back_to_the_setting_witness :
  get_site_for_user Demo.explorable_root Demo.site_of (Some "Wagtail") Site.alice
  = SiteReturn (mkSiteInfo None None "Wagtail").
Proof.
  apply (@site_name_falls_back_to_the_setting
           Demo.explorable_root Demo.site_of (Some "Wagtail") Site.alice).
  exact I.
Defined.

(** X25.  When [WAGTAIL_SITE_NAME] is defined [get_site_for_user] always
    returns.  What it returns names the explorable root page of the user,
    names a site only together with a root page, that site being the one
    of the page, and has a name that is not empty unless the setting
    itself is. *)
Theorem site_info_is_consistent :
  forall get_explorable_root_page get_site default_name user,
    exists info,
      get_site_for_user get_explorable_root_page get_site (Some default_name) user
      = SiteReturn info
      /\ info_root_page info = get_explorable_root_page user
      /\ (forall st, info_root_site info = Some st ->
                     exists page, info_root_page info = Some page
                                  /\ get_site page = Some st)
      /\ (info_site_name info = "" -> default_name = "").
Proof.
  intros root site_of default_name user. unfold get_site_for_user.
  destruct (root user) as [page|]; simpl.
  - destruct (site_of page) as [st|] eqn:Hsite; simpl.
    + assert (Hst : forall st', Some st = Some st' ->
                                exists page', Some page = Some page'
                                              /\ site_of page' = Some st').
      { intros st' Heq. injection Heq as Heq. subst st'. exists page. tauto. }
      destruct (site_name st) as [name|]; simpl.
      * destruct (str_truthy name) eqn:Hname; simpl.
        -- rewrite Hname. eexists. split; [reflexivity|]. simpl.
           repeat split; try assumption.
           intro Hempty. subst name. discriminate.
        -- destruct (str_truthy (hostname st)) eqn:Hhost;
             (eexists; split; [reflexivity|]); simpl;
             repeat split; try assumption; try tauto.
           intro Hempty. rewrite Hempty in Hhost. discriminate.
      * destruct (str_truthy (hostname st)) eqn:Hhost;
          (eexists; split; [reflexivity|]); simpl;
          repeat split; try assumption; try tauto.
        intro Hempty. rewrite Hempty in Hhost. discriminate.
    + eexists. split; [reflexivity|]. simpl. repeat split; try tauto.
      intros st Habsurd. discriminate.
  - eexists. split; [reflexivity|]. simpl. repeat split; try tauto.
    intros st Habsurd. discriminate.
Qed.
